(** * MultiBuildingManager: the multi-building selection and aggregation engine

    A shallow embedding of [src/routes/multi-building.ts] and the properties
    its specification states about it.

    Conventions of the embedding:
    - a JavaScript [number] is an IEEE 754 binary64 value: Rocq's primitive
      [float], whose operations are the hardware's;
    - a JavaScript string is a [string] holding its UTF-8 bytes; every
      character the program inspects ([','], digits, ASCII letters, white
      space) is recognised on that encoding without ambiguity;
    - the [Map] of the manager is an association list in insertion order;
    - calls that leave the manager ([polygon.setMap(null)], the update
      callback) are recorded, in order, in a trace of events; they are taken
      to return normally and not to call back into the manager (the page's
      callback stores the array it is given, nothing more);
    - [Date.now()] is an input of [addBuilding]. *)

From Stdlib Require Import ZArith List String Ascii Bool Lia.
From Stdlib Require Import Floats DecimalString DecimalZ.
Import ListNotations.

Set Warnings "-inexact-float".
Local Open Scope list_scope.
Local Open Scope string_scope.

(** ** The JavaScript built-ins the source calls *)

Module JS.

(** [ToString] of an integral Number of magnitude below 10^21 (and of the time
    value [Date.now()] returns): its decimal digits, ["-"] in front when
    negative. *)
Definition decimal (z : Z) : string := NilZero.string_of_int (Z.to_int z).

(** The Number nearest to an integer (exact below 2^53). *)
Definition ofZ (z : Z) : float := SF2Prim (binary_normalize prec emax z 0 false).

(** [Math.floor]. NaN, the infinities, both zeros and integral values are
    returned as they are; a value in (0,1) gives +0. *)
Definition Math_floor (x : float) : float :=
  match Prim2SF x with
  | S754_finite s m e =>
      if (0 <=? e)%Z then x
      else ofZ (Z.shiftr (if s then Zneg m else Zpos m) (- e))
  | _ => x
  end.

(** The integer a Number used as an array subscript denotes, when it denotes
    one: [-0] and [+0] denote 0; a negative, fractional, infinite or NaN
    subscript names no element. *)
Definition arrayIndex (x : float) : option Z :=
  match Prim2SF x with
  | S754_zero _ => Some 0%Z
  | S754_finite false m e =>
      if (0 <=? e)%Z then Some (Zpos m * 2 ^ e)%Z
      else
        let q := Z.shiftr (Zpos m) (- e) in
        if (Z.shiftl q (- e) =? Zpos m)%Z then Some q else None
  | _ => None
  end.

(** [arr[x]]: [None] stands for [undefined]. *)
Definition arrayGet {A : Type} (arr : list A) (x : float) : option A :=
  match arrayIndex x with
  | Some i =>
      if (i <? Z.of_nat (List.length arr))%Z then nth_error arr (Z.to_nat i) else None
  | None => None
  end.

(** [arr.length] as a Number. *)
Definition arrayLength {A : Type} (arr : list A) : float :=
  ofZ (Z.of_nat (List.length arr)).

(** *** Number.prototype.toFixed(6) *)

Fixpoint zeros (n : nat) : string :=
  match n with
  | O => EmptyString
  | S n' => String "0" (zeros n')
  end.

(** [n / 10^6] written with exactly six fractional digits, [n >= 0]. *)
Definition fixed6 (n : Z) : string :=
  let frac := decimal (n mod 1000000) in
  decimal (n / 1000000) ++ "." ++ zeros (6 - String.length frac) ++ frac.

(** Is there a multiple [c * 10^j] in the set of reals that round to the
    Number [m * 2^e]?  The bounds are held multiplied by four, so that the
    half-way points are integers. *)
Definition roundingInterval (m : positive) (e : Z) : Z * Z * bool :=
  let X := (Zpos m * 2 ^ e)%Z in
  let below := if (Zpos m =? 2 ^ 52)%Z then (2 ^ e)%Z else (2 * 2 ^ e)%Z in
  ((4 * X - below)%Z, (4 * X + 2 * 2 ^ e)%Z, Z.even (Zpos m)).

Definition multiplesIn (m : positive) (e : Z) (j : Z) : Z * Z :=
  let '(lo4, hi4, closed) := roundingInterval m e in
  let P4 := (4 * 10 ^ j)%Z in
  if closed
  then ((lo4 + P4 - 1) / P4, hi4 / P4)%Z
  else (lo4 / P4 + 1, (hi4 + P4 - 1) / P4 - 1)%Z.

Fixpoint largestPower (fuel : nat) (m : positive) (e : Z) (j : Z) : Z :=
  match fuel with
  | O => j
  | S fuel' =>
      let '(cmin, cmax) := multiplesIn m e (j + 1) in
      if (cmin <=? cmax)%Z then largestPower fuel' m e (j + 1)%Z else j
  end.

(** The shortest digit string [s] and exponent [j] with [s * 10^j] rounding
    to [m * 2^e]; among several [s], the one nearest the value, the even one
    on a tie. *)
Definition shortestDigits (m : positive) (e : Z) : Z * Z :=
  let X := (Zpos m * 2 ^ e)%Z in
  let j := largestPower 400 m e 0 in
  let P := (10 ^ j)%Z in
  let '(cmin, cmax) := multiplesIn m e j in
  let c0 := (X / P)%Z in
  let c1 := (c0 + 1)%Z in
  let s :=
    if (c0 <? cmin)%Z then c1
    else if (cmax <? c1)%Z then c0
    else
      let d0 := (X - c0 * P)%Z in
      let d1 := (c1 * P - X)%Z in
      if (d0 <? d1)%Z then c0
      else if (d1 <? d0)%Z then c1
      else if Z.even c0 then c0 else c1 in
  (s, j).

(** [Number::toString] of an integral Number [m * 2^e >= 10^21]: exponential
    notation over the shortest digits. *)
Definition toStringLarge (m : positive) (e : Z) : string :=
  let '(s, j) := shortestDigits m e in
  let digits := decimal s in
  let n := (Z.of_nat (String.length digits) + j)%Z in
  match digits with
  | String d EmptyString => String d EmptyString ++ "e+" ++ decimal (n - 1)
  | String d rest => String d EmptyString ++ "." ++ rest ++ "e+" ++ decimal (n - 1)
  | EmptyString => EmptyString
  end.

Definition toFixed6 (x : float) : string :=
  match Prim2SF x with
  | S754_nan => "NaN"
  | S754_infinity s => if s then "-Infinity" else "Infinity"
  | S754_zero _ => "0.000000"
  | S754_finite s m e =>
      let sign := if s then "-" else EmptyString in
      if (0 <=? e)%Z then
        let X := (Zpos m * 2 ^ e)%Z in
        if (10 ^ 21 <=? X)%Z then sign ++ toStringLarge m e
        else sign ++ fixed6 (X * 1000000)
      else
        (* round half up, on the exact value *)
        let n := ((2 * Zpos m * 1000000 + 2 ^ (- e)) / 2 ^ (- e + 1))%Z in
        sign ++ fixed6 n
  end.

(** *** String.prototype.split(',')[0], trim and match *)

(** [s.split(',')[0]]: the text before the first comma, all of [s] when it
    has none. *)
Fixpoint beforeFirstComma (s : string) : string :=
  match s with
  | EmptyString => EmptyString
  | String c s' => if Ascii.eqb c "," then EmptyString else String c (beforeFirstComma s')
  end.

(** [dropPrefix p s]: what follows [p] in [s], when [s] starts with [p]. *)
Fixpoint dropPrefix (p s : string) : option string :=
  match p with
  | EmptyString => Some s
  | String a p' =>
      match s with
      | String b s' => if Ascii.eqb a b then dropPrefix p' s' else None
      | EmptyString => None
      end
  end.

Definition bytes (l : list nat) : string :=
  string_of_list_ascii (map ascii_of_nat l).

(** White space and line terminators of ECMAScript, in UTF-8: TAB, LF, VT,
    FF, CR, SP, U+00A0, U+1680, U+2000..U+200A, U+2028, U+2029, U+202F,
    U+205F, U+3000, U+FEFF. *)
Definition whiteSpace : list string :=
  map bytes
    [ [9]; [10]; [11]; [12]; [13]; [32]; [194; 160]; [225; 154; 128];
      [226; 128; 128]; [226; 128; 129]; [226; 128; 130]; [226; 128; 131];
      [226; 128; 132]; [226; 128; 133]; [226; 128; 134]; [226; 128; 135];
      [226; 128; 136]; [226; 128; 137]; [226; 128; 138]; [226; 128; 168];
      [226; 128; 169]; [226; 128; 175]; [226; 129; 159]; [227; 128; 128];
      [239; 187; 191] ]%nat.

Fixpoint dropAny (ps : list string) (s : string) : option string :=
  match ps with
  | [] => None
  | p :: ps' =>
      match dropPrefix p s with
      | Some rest => Some rest
      | None => dropAny ps' s
      end
  end.

Fixpoint dropWhile (ps : list string) (fuel : nat) (s : string) : string :=
  match fuel with
  | O => s
  | S fuel' =>
      match dropAny ps s with
      | Some rest => dropWhile ps fuel' rest
      | None => s
      end
  end.

Definition reverse (s : string) : string :=
  string_of_list_ascii (rev (list_ascii_of_string s)).

Definition trimStart (s : string) : string :=
  dropWhile whiteSpace (String.length s) s.

Definition trimEnd (s : string) : string :=
  reverse (dropWhile (map reverse whiteSpace) (String.length s) (reverse s)).

Definition trim (s : string) : string := trimEnd (trimStart s).

(** [\d] and [[a-zA-Z]]. *)
Definition isDigit (c : ascii) : bool :=
  let n := nat_of_ascii c in (48 <=? n)%nat && (n <=? 57)%nat.

Definition isLetter (c : ascii) : bool :=
  let n := nat_of_ascii c in
  ((97 <=? n)%nat && (n <=? 122)%nat) || ((65 <=? n)%nat && (n <=? 90)%nat).

(** The greedy [\d+] at the head of [s]: the digits taken and what is left. *)
Fixpoint spanDigits (s : string) : string * string :=
  match s with
  | EmptyString => (EmptyString, EmptyString)
  | String c s' =>
      if isDigit c
      then let '(ds, rest) := spanDigits s' in (String c ds, rest)
      else (EmptyString, s)
  end.

(** The greedy [[a-zA-Z]?] at the head of [s]. *)
Definition optLetter (s : string) : string :=
  match s with
  | String c _ => if isLetter c then String c EmptyString else EmptyString
  | EmptyString => EmptyString
  end.

(** [s.match(/(\d+[a-zA-Z]?)/)]: capture group 1 of the leftmost match,
    [None] for a [null] result. The pattern is not anchored: the match
    starts at the first digit of [s], wherever it is. *)
Fixpoint matchNumberToken (s : string) : option string :=
  match s with
  | EmptyString => None
  | String c s' =>
      if isDigit c
      then let '(ds, rest) := spanDigits s in Some (ds ++ optLetter rest)
      else matchNumberToken s'
  end.

End JS.

(** ** Data model *)

(** Modelled from the spec: the type [BuildingInsightsResponse] is declared
    in [./solar], which is not among the sources; these are the fields the
    manager reads, named as [getAggregatedData] and the test fixture name
    them. *)
Module Solar.

Record SolarPanelConfig : Type := {
  panelsCount : float;
  yearlyEnergyDcKwh : float
}.

Record SizeAndSunshineStats : Type := {
  areaMeters2 : float
}.

Record SolarPotential : Type := {
  maxArrayPanelsCount : float;
  panelCapacityWatts : float;
  maxArrayAreaMeters2 : float;
  carbonOffsetFactorKgPerMwh : float;
  wholeRoofStats : SizeAndSunshineStats;
  solarPanelConfigs : list SolarPanelConfig
}.

Record BuildingInsightsResponse : Type := {
  solarPotential : SolarPotential
}.

End Solar.
Import Solar.

(** [google.maps.LatLng], read through [lat()] and [lng()]. *)
Record LatLng : Type := {
  lat : float;
  lng : float
}.

(** [google.maps.Polygon]: a handle on an overlay the map collaborator owns.
    The manager only ever calls [setMap(null)] on it. *)
Inductive Polygon : Type := PolygonHandle (n : nat).

Record SelectedBuilding : Type := {
  id : string;
  buildingInsights : BuildingInsightsResponse;
  configId : float;
  location : LatLng;
  address : string;
  nickname : option string;
  boundary : option Polygon;
  panels : list Polygon;
  isActive : bool
}.

Record AggregatedSolarData : Type := {
  totalPanelsCount : float;
  totalYearlyEnergyDcKwh : float;
  totalAreaMeters2 : float;
  totalMaxArrayPanelsCount : float;
  totalMaxArrayAreaMeters2 : float;
  totalRoofArea : float;
  buildings : list SelectedBuilding;
  averagePanelCapacityWatts : float;
  totalCarbonOffsetKgPerYear : float
}.

(** Assignments to one field of a building object. *)
Definition set_configId (v : float) (b : SelectedBuilding) : SelectedBuilding :=
  {| id := id b; buildingInsights := buildingInsights b; configId := v;
     location := location b; address := address b; nickname := nickname b;
     boundary := boundary b; panels := panels b; isActive := isActive b |}.

Definition set_nickname (v : option string) (b : SelectedBuilding) : SelectedBuilding :=
  {| id := id b; buildingInsights := buildingInsights b; configId := configId b;
     location := location b; address := address b; nickname := v;
     boundary := boundary b; panels := panels b; isActive := isActive b |}.

Definition set_isActive (v : bool) (b : SelectedBuilding) : SelectedBuilding :=
  {| id := id b; buildingInsights := buildingInsights b; configId := configId b;
     location := location b; address := address b; nickname := nickname b;
     boundary := boundary b; panels := panels b; isActive := v |}.

Definition set_panels (v : list Polygon) (b : SelectedBuilding) : SelectedBuilding :=
  {| id := id b; buildingInsights := buildingInsights b; configId := configId b;
     location := location b; address := address b; nickname := nickname b;
     boundary := boundary b; panels := v; isActive := isActive b |}.

Definition set_boundary (v : option Polygon) (b : SelectedBuilding) : SelectedBuilding :=
  {| id := id b; buildingInsights := buildingInsights b; configId := configId b;
     location := location b; address := address b; nickname := nickname b;
     boundary := v; panels := panels b; isActive := isActive b |}.

(** ** The JavaScript [Map<string, SelectedBuilding>]

    Entries are kept in insertion order. [set] on a key already present
    replaces the value where it stands; on a new key it appends. *)
Module JSMap.

Definition t : Type := list (string * SelectedBuilding).

Definition empty : t := [].

Fixpoint get (k : string) (m : t) : option SelectedBuilding :=
  match m with
  | [] => None
  | (k', v) :: m' => if String.eqb k k' then Some v else get k m'
  end.

Fixpoint has (k : string) (m : t) : bool :=
  match m with
  | [] => false
  | (k', _) :: m' => if String.eqb k k' then true else has k m'
  end.

Fixpoint replace (k : string) (v : SelectedBuilding) (m : t) : t :=
  match m with
  | [] => []
  | (k', v') :: m' =>
      if String.eqb k k' then (k', v) :: m' else (k', v') :: replace k v m'
  end.

Definition set (k : string) (v : SelectedBuilding) (m : t) : t :=
  if has k m then replace k v m else (m ++ [(k, v)])%list.

Fixpoint delete (k : string) (m : t) : t :=
  match m with
  | [] => []
  | (k', v') :: m' =>
      if String.eqb k k' then m' else (k', v') :: delete k m'
  end.

Definition keys (m : t) : list string := map fst m.

Definition values (m : t) : list SelectedBuilding := map snd m.

End JSMap.

(** ** The manager and its effects *)

(** The function passed to the constructor, known by a handle; calling it is
    an event of the trace. *)
Inductive Callback : Type := CallbackHandle (n : nat).

(** The calls the manager makes: [p.setMap(null)], and [cb(arg)] with the
    array of entries as they are when the call is made. *)
Inductive Event : Type :=
| SetMapNull (p : Polygon)
| OnUpdate (cb : Callback) (arg : list SelectedBuilding).

Record MultiBuildingManager : Type := {
  this_buildings : JSMap.t;
  this_onUpdateCallback : option Callback
}.

(** A method runs on the manager and gives back its result, the manager
    afterwards and the calls it made, oldest first. *)
Definition M (A : Type) : Type :=
  MultiBuildingManager -> A * MultiBuildingManager * list Event.

Definition ret {A : Type} (a : A) : M A := fun this => (a, this, []).

Definition bind {A B : Type} (c : M A) (k : A -> M B) : M B :=
  fun this =>
    let '(a, this1, t1) := c this in
    let '(b, this2, t2) := k a this1 in
    (b, this2, (t1 ++ t2)%list).

Notation "x <- c ;; k" := (bind c (fun x => k))
  (at level 61, c at next level, right associativity).
Notation "c ;; k" := (bind c (fun _ => k))
  (at level 61, right associativity).

Definition result {A : Type} (o : A * MultiBuildingManager * list Event) : A :=
  fst (fst o).
Definition after {A : Type} (o : A * MultiBuildingManager * list Event)
  : MultiBuildingManager := snd (fst o).
Definition trace {A : Type} (o : A * MultiBuildingManager * list Event)
  : list Event := snd o.

(** [this.buildings.get/set/delete/clear/values()] and iteration over
    [this.buildings]. *)
Definition buildings_get (id : string) : M (option SelectedBuilding) :=
  fun this => (JSMap.get id (this_buildings this), this, []).

Definition buildings_update (f : JSMap.t -> JSMap.t) : M unit :=
  fun this =>
    (tt,
     {| this_buildings := f (this_buildings this);
        this_onUpdateCallback := this_onUpdateCallback this |},
     []).

Definition buildings_set (id : string) (b : SelectedBuilding) : M unit :=
  buildings_update (JSMap.set id b).

Definition buildings_delete (id : string) : M unit :=
  buildings_update (JSMap.delete id).

Definition buildings_clear : M unit :=
  buildings_update (fun _ => JSMap.empty).

Definition buildings_values : M (list SelectedBuilding) :=
  fun this => (JSMap.values (this_buildings this), this, []).

Definition buildings_entries : M JSMap.t :=
  fun this => (this_buildings this, this, []).

(** An assignment [building.f = v] through the reference that
    [this.buildings.get(id)] returned: the object held under [id] changes,
    and keeps its place in the map. *)
Definition assign (id : string) (f : SelectedBuilding -> SelectedBuilding) : M unit :=
  building <- buildings_get id ;;
  match building with
  | Some b => buildings_update (JSMap.replace id (f b))
  | None => ret tt
  end.

Definition readCallback : M (option Callback) :=
  fun this => (this_onUpdateCallback this, this, []).

Definition emit (e : Event) : M unit := fun this => (tt, this, [e]).

(** [polygon.setMap(null)]. *)
Definition setMap_null (p : Polygon) : M unit := emit (SetMapNull p).

Fixpoint forEach {A : Type} (f : A -> M unit) (l : list A) : M unit :=
  match l with
  | [] => ret tt
  | x :: l' => f x ;; forEach f l'
  end.

(** [building.boundary?.setMap(null); building.panels.forEach(...)]. *)
Definition detach (building : SelectedBuilding) : M unit :=
  match boundary building with
  | Some p => setMap_null p
  | None => ret tt
  end ;;
  forEach setMap_null (panels building).

(** [new MultiBuildingManager(onUpdate)]. *)
Definition constructor (onUpdate : option Callback) : MultiBuildingManager :=
  {| this_buildings := JSMap.empty; this_onUpdateCallback := onUpdate |}.

Definition getBuilding (id : string) : M (option SelectedBuilding) :=
  buildings_get id.

Definition getAllBuildings : M (list SelectedBuilding) :=
  buildings_values.

Definition getActiveBuildings : M (list SelectedBuilding) :=
  all <- buildings_values ;;
  ret (filter isActive all).

Definition notifyUpdate : M unit :=
  cb <- readCallback ;;
  match cb with
  | Some cb =>
      all <- getAllBuildings ;;
      emit (OnUpdate cb all)
  | None => ret tt
  end.

(** [Date.now()] is an input: the time value [now], an integer number of
    milliseconds. *)
Definition generateId (now : Z) (location : LatLng) : string :=
  "building_" ++ JS.toFixed6 (lat location) ++ "_" ++ JS.toFixed6 (lng location)
    ++ "_" ++ JS.decimal now.

Definition generateNickname (address : string) : string :=
  let parts := JS.trim (JS.beforeFirstComma address) in
  match JS.matchNumberToken parts with
  | Some token => "Gebäude " ++ token
  | None => "Gebäude"
  end.

(** [nickname || this.generateNickname(address)]: an omitted nickname and
    the empty string are both falsy. *)
Definition nicknameOr (nickname : option string) (address : string) : string :=
  match nickname with
  | Some EmptyString => generateNickname address
  | Some s => s
  | None => generateNickname address
  end.

(** A parameter with a default value: [None] is the omitted argument. *)
Definition orDefault (d : float) (x : option float) : float :=
  match x with
  | Some v => v
  | None => d
  end.

Definition addBuilding (now : Z) (buildingInsights : BuildingInsightsResponse)
    (location : LatLng) (address : string) (configId : option float)
    (nickname : option string) : M string :=
  let configId := orDefault 0%float configId in
  let id := generateId now location in
  let building :=
    {| id := id;
       buildingInsights := buildingInsights;
       configId := configId;
       location := location;
       address := address;
       nickname := Some (nicknameOr nickname address);
       boundary := None;
       panels := [];
       isActive := true |} in
  buildings_set id building ;;
  notifyUpdate ;;
  ret id.

Definition removeBuilding (id : string) : M bool :=
  building <- buildings_get id ;;
  match building with
  | Some building =>
      detach building ;;
      buildings_delete id ;;
      notifyUpdate ;;
      ret true
  | None => ret false
  end.

Definition updateBuildingConfig (id : string) (configId : float) : M bool :=
  building <- buildings_get id ;;
  match building with
  | Some _ =>
      assign id (set_configId configId) ;;
      notifyUpdate ;;
      ret true
  | None => ret false
  end.

Definition updateBuildingNickname (id : string) (nickname : string) : M bool :=
  building <- buildings_get id ;;
  match building with
  | Some _ =>
      assign id (set_nickname (Some nickname)) ;;
      notifyUpdate ;;
      ret true
  | None => ret false
  end.

Definition toggleBuildingActive (id : string) : M bool :=
  building <- buildings_get id ;;
  match building with
  | Some building =>
      assign id (set_isActive (negb (isActive building))) ;;
      notifyUpdate ;;
      ret true
  | None => ret false
  end.

Definition setBuildingPanels (id : string) (panels : list Polygon) : M bool :=
  building <- buildings_get id ;;
  match building with
  | Some _ =>
      assign id (set_panels panels) ;;
      ret true
  | None => ret false
  end.

Definition setBuildingBoundary (id : string) (boundary : Polygon) : M bool :=
  building <- buildings_get id ;;
  match building with
  | Some _ =>
      assign id (set_boundary (Some boundary)) ;;
      ret true
  | None => ret false
  end.


(** The distance [hasBuilding] computes for one entry. *)
Definition distance (point : LatLng) (building : SelectedBuilding) : float :=
  let latDiff := abs (lat point - lat (location building)) in
  let lngDiff := abs (lng point - lng (location building)) in
  sqrt (latDiff * latDiff + lngDiff * lngDiff).

(** [for (const [id, building] of this.buildings) { ... return id } return null] *)
Fixpoint hasBuilding_scan (location : LatLng) (threshold : float)
    (entries : list (string * SelectedBuilding)) : option string :=
  match entries with
  | [] => None
  | (id, building) :: rest =>
      if (distance location building <? threshold)%float
      then Some id
      else hasBuilding_scan location threshold rest
  end.

Definition hasBuilding (location : LatLng) (threshold : option float)
  : M (option string) :=
  let threshold := orDefault 0.0001%float threshold in
  entries <- buildings_entries ;;
  ret (hasBuilding_scan location threshold entries).

(** How a JavaScript evaluation ends: with a value, or by throwing. The only
    throw in the manager is the [TypeError] of reading a property of
    [undefined], when [solarPanelConfigs[building.configId]] names no
    element. *)
Inductive Completion (A : Type) : Type :=
| Normal (a : A)
| ThrowTypeError.
Arguments Normal {A} a.
Arguments ThrowTypeError {A}.

(** The [let] variables the loop of [getAggregatedData] accumulates into.
    ([totalAreaMeters2] is not one of them: it is assigned once, after the
    loop.) *)
Record Totals : Type := {
  acc_totalPanelsCount : float;
  acc_totalYearlyEnergyDcKwh : float;
  acc_totalMaxArrayPanelsCount : float;
  acc_totalMaxArrayAreaMeters2 : float;
  acc_totalRoofArea : float;
  acc_totalCarbonOffset : float;
  acc_totalPanelCapacity : float
}.

Definition zeroTotals : Totals :=
  {| acc_totalPanelsCount := 0; acc_totalYearlyEnergyDcKwh := 0;
     acc_totalMaxArrayPanelsCount := 0; acc_totalMaxArrayAreaMeters2 := 0;
     acc_totalRoofArea := 0; acc_totalCarbonOffset := 0;
     acc_totalPanelCapacity := 0 |}.

(** [building.buildingInsights.solarPotential.solarPanelConfigs[building.configId]] *)
Definition configOf (building : SelectedBuilding) : option SolarPanelConfig :=
  JS.arrayGet (solarPanelConfigs (solarPotential (buildingInsights building)))
    (configId building).

(** One turn of the loop. *)
Definition accumulate (panelCapacityRatio dcToAcDerate : float) (acc : Totals)
    (building : SelectedBuilding) : Completion Totals :=
  let solarPotential := solarPotential (buildingInsights building) in
  match configOf building with
  | None => ThrowTypeError
  | Some config =>
      Normal
        {| acc_totalPanelsCount :=
             acc_totalPanelsCount acc
             + JS.Math_floor (panelsCount config * panelCapacityRatio);
           acc_totalYearlyEnergyDcKwh :=
             acc_totalYearlyEnergyDcKwh acc
             + yearlyEnergyDcKwh config * panelCapacityRatio * dcToAcDerate;
           acc_totalMaxArrayPanelsCount :=
             acc_totalMaxArrayPanelsCount acc + maxArrayPanelsCount solarPotential;
           acc_totalMaxArrayAreaMeters2 :=
             acc_totalMaxArrayAreaMeters2 acc + maxArrayAreaMeters2 solarPotential;
           acc_totalRoofArea :=
             acc_totalRoofArea acc + areaMeters2 (wholeRoofStats solarPotential);
           acc_totalCarbonOffset :=
             acc_totalCarbonOffset acc
             + (yearlyEnergyDcKwh config * panelCapacityRatio * dcToAcDerate
                * carbonOffsetFactorKgPerMwh solarPotential) / 1000;
           acc_totalPanelCapacity :=
             acc_totalPanelCapacity acc + panelCapacityWatts solarPotential |}%float
  end.

(** [for (const building of activeBuildings) { ... }] *)
Fixpoint forOf (body : Totals -> SelectedBuilding -> Completion Totals)
    (acc : Totals) (l : list SelectedBuilding) : Completion Totals :=
  match l with
  | [] => Normal acc
  | building :: rest =>
      match body acc building with
      | Normal acc' => forOf body acc' rest
      | ThrowTypeError => ThrowTypeError
      end
  end.

Definition aggregate (panelCapacityRatio dcToAcDerate : float)
    (activeBuildings : list SelectedBuilding) : Completion AggregatedSolarData :=
  match forOf (accumulate panelCapacityRatio dcToAcDerate) zeroTotals activeBuildings with
  | ThrowTypeError => ThrowTypeError
  | Normal acc =>
      let totalPanelsCount := acc_totalPanelsCount acc in
      let totalAreaMeters2 := (totalPanelsCount * 2)%float in
      Normal
        {| totalPanelsCount := totalPanelsCount;
           totalYearlyEnergyDcKwh := acc_totalYearlyEnergyDcKwh acc;
           totalAreaMeters2 := totalAreaMeters2;
           totalMaxArrayPanelsCount := acc_totalMaxArrayPanelsCount acc;
           totalMaxArrayAreaMeters2 := acc_totalMaxArrayAreaMeters2 acc;
           totalRoofArea := acc_totalRoofArea acc;
           buildings := activeBuildings;
           averagePanelCapacityWatts :=
             if (0 <? JS.arrayLength activeBuildings)%float
             then (acc_totalPanelCapacity acc / JS.arrayLength activeBuildings)%float
             else 0%float;
           totalCarbonOffsetKgPerYear := acc_totalCarbonOffset acc |}
  end.

Definition getAggregatedData (panelCapacityRatio dcToAcDerate : option float)
  : M (Completion AggregatedSolarData) :=
  let panelCapacityRatio := orDefault 1.0%float panelCapacityRatio in
  let dcToAcDerate := orDefault 0.85%float dcToAcDerate in
  activeBuildings <- getActiveBuildings ;;
  ret (aggregate panelCapacityRatio dcToAcDerate activeBuildings).

Definition clear : M unit :=
  all <- buildings_values ;;
  forEach detach all ;;
  buildings_clear ;;
  notifyUpdate.

(** ** The states the manager can be in *)

(** The calls that can change the manager. *)
Inductive Mutation : Type :=
| Add (now : Z) (buildingInsights : BuildingInsightsResponse) (location : LatLng)
      (address : string) (configId : option float) (nickname : option string)
| Remove (id : string)
| UpdateConfig (id : string) (configId : float)
| UpdateNickname (id : string) (nickname : string)
| ToggleActive (id : string)
| SetPanels (id : string) (panels : list Polygon)
| SetBoundary (id : string) (boundary : Polygon)
| Clear.

Definition perform (c : Mutation) : M unit :=
  match c with
  | Add now ins loc addr cfg nick => addBuilding now ins loc addr cfg nick ;; ret tt
  | Remove id => removeBuilding id ;; ret tt
  | UpdateConfig id cfg => updateBuildingConfig id cfg ;; ret tt
  | UpdateNickname id nick => updateBuildingNickname id nick ;; ret tt
  | ToggleActive id => toggleBuildingActive id ;; ret tt
  | SetPanels id ps => setBuildingPanels id ps ;; ret tt
  | SetBoundary id p => setBuildingBoundary id p ;; ret tt
  | Clear => clear
  end.

(** A state is reachable when calls lead to it from a fresh manager. *)
Inductive Reachable : MultiBuildingManager -> Prop :=
| Reachable_new (onUpdate : option Callback) : Reachable (constructor onUpdate)
| Reachable_call (this : MultiBuildingManager) (c : Mutation) :
    Reachable this -> Reachable (after (perform c this)).

(** ** Vocabulary of the statements *)

(** A sum as the loop forms it: from 0, left to right. *)
Definition fsum (l : list float) : float := fold_left PrimFloat.add l 0%float.

(** The calls of the update callback in a trace. *)
Definition isOnUpdate (e : Event) : bool :=
  match e with
  | OnUpdate _ _ => true
  | SetMapNull _ => false
  end.

Definition callbacks (t : list Event) : list Event := filter isOnUpdate t.

(** The detach instructions in a trace. *)
Definition detached (t : list Event) : list Event :=
  filter (fun e => negb (isOnUpdate e)) t.

(** The entries of a manager, in insertion order, and its live ids. *)
Definition all (this : MultiBuildingManager) : list SelectedBuilding :=
  result (getAllBuildings this).

Definition active (this : MultiBuildingManager) : list SelectedBuilding :=
  result (getActiveBuildings this).

Definition live (id : string) (this : MultiBuildingManager) : Prop :=
  result (getBuilding id this) <> None.

(** The same manager with another callback, or none. *)
Definition withCallback (cb : option Callback) (this : MultiBuildingManager)
  : MultiBuildingManager :=
  {| this_buildings := this_buildings this; this_onUpdateCallback := cb |}.

(** What [notifyUpdate] hands to the callback, if there is one. *)
Definition notification (this : MultiBuildingManager) : list Event :=
  match this_onUpdateCallback this with
  | Some cb => [OnUpdate cb (JSMap.values (this_buildings this))]
  | None => []
  end.

(** The manager after its map went through [f]. *)
Definition updated (f : JSMap.t -> JSMap.t) (this : MultiBuildingManager)
  : MultiBuildingManager :=
  {| this_buildings := f (this_buildings this);
     this_onUpdateCallback := this_onUpdateCallback this |}.

(** The trace of [detach]. *)
Definition detachEvents (b : SelectedBuilding) : list Event :=
  (match boundary b with Some p => [SetMapNull p] | None => [] end
   ++ map SetMapNull (panels b))%list.

(** An entry sits under its own [id], and that [id] was generated from the
    entry's own location at some time. *)
Definition entryOk (kv : string * SelectedBuilding) : Prop :=
  id (snd kv) = fst kv /\ exists now, id (snd kv) = generateId now (location (snd kv)).

(** The invariant of the manager: no key twice, every entry as above. *)
Definition Inv (this : MultiBuildingManager) : Prop :=
  NoDup (JSMap.keys (this_buildings this)) /\ Forall entryOk (this_buildings this).



(** The terms of the sums of [getAggregatedData], for one chosen
    configuration. *)
Definition panelsTerm (panelCapacityRatio : float) (c : SolarPanelConfig) : float :=
  JS.Math_floor (panelsCount c * panelCapacityRatio).

Definition energyTerm (panelCapacityRatio dcToAcDerate : float)
    (c : SolarPanelConfig) : float :=
  (yearlyEnergyDcKwh c * panelCapacityRatio * dcToAcDerate)%float.

Definition carbonTerm (panelCapacityRatio dcToAcDerate : float)
    (bc : SelectedBuilding * SolarPanelConfig) : float :=
  (yearlyEnergyDcKwh (snd bc) * panelCapacityRatio * dcToAcDerate
   * carbonOffsetFactorKgPerMwh (solarPotential (buildingInsights (fst bc)))
   / 1000)%float.

(** The text after the last ['_'] of a string. *)
Fixpoint hasUnderscore (s : string) : bool :=
  match s with
  | EmptyString => false
  | String c s' => Ascii.eqb c "_" || hasUnderscore s'
  end.

Fixpoint lastField (s : string) : string :=
  match s with
  | EmptyString => EmptyString
  | String _ s' => if hasUnderscore s then lastField s' else s
  end.

(** The callback [cb] is called exactly once, with the entries the manager
    holds after the call. *)
Definition notifiesOnce {A : Type} (cb : Callback)
    (o : A * MultiBuildingManager * list Event) : Prop :=
  callbacks (trace o) = [OnUpdate cb (all (after o))].

Definition neverNotifies {A : Type} (o : A * MultiBuildingManager * list Event) : Prop :=
  callbacks (trace o) = [].

(** The call answers [false] and calls nothing back. *)
Definition refuses (o : bool * MultiBuildingManager * list Event) : Prop :=
  result o = false /\ neverNotifies o.

(** Without a callback a call does what it does with one (same result, same
    entries afterwards, same detach instructions) and calls nothing back. *)
Definition sameButSilent {A : Type}
    (without with_cb : A * MultiBuildingManager * list Event) : Prop :=
  result without = result with_cb
  /\ this_buildings (after without) = this_buildings (after with_cb)
  /\ detached (trace without) = detached (trace with_cb)
  /\ callbacks (trace without) = [].

(** Tests on the characters of a string. *)
Fixpoint allChars (p : ascii -> bool) (s : string) : bool :=
  match s with
  | EmptyString => true
  | String c s' => p c && allChars p s'
  end.

Definition headIs (p : ascii -> bool) (s : string) : bool :=
  match s with
  | String c _ => p c
  | EmptyString => false
  end.

Definition noDigit (s : string) : Prop :=
  allChars (fun c => negb (JS.isDigit c)) s = true.

Definition allDigits (s : string) : Prop := allChars JS.isDigit s = true.

(** The token [matchNumberToken] captures: the first run of digits of the
    string, whole, with the letter that follows it when one does. *)
Definition tokenOf (s token : string) : Prop :=
  exists before digits letter rest,
    s = before ++ digits ++ letter ++ rest
    /\ noDigit before
    /\ digits <> EmptyString /\ allDigits digits
    /\ headIs JS.isDigit (letter ++ rest) = false
    /\ (letter = EmptyString /\ headIs JS.isLetter rest = false
        \/ exists c, letter = String c EmptyString /\ JS.isLetter c = true)
    /\ token = digits ++ letter.

(** *** Fixtures of the test suite *)

Definition mockLatLng1 : LatLng := {| lat := 37.4419; lng := -122.143 |}.
Definition mockLatLng2 : LatLng := {| lat := 37.442; lng := -122.1431 |}.

Definition mockBuildingInsights : BuildingInsightsResponse :=
  {| solarPotential :=
       {| maxArrayPanelsCount := 100;
          panelCapacityWatts := 400;
          maxArrayAreaMeters2 := 200;
          carbonOffsetFactorKgPerMwh := 428;
          wholeRoofStats := {| areaMeters2 := 250 |};
          solarPanelConfigs :=
            [ {| panelsCount := 50; yearlyEnergyDcKwh := 20000 |};
              {| panelsCount := 75; yearlyEnergyDcKwh := 30000 |};
              {| panelsCount := 100; yearlyEnergyDcKwh := 40000 |} ] |} |}.

Definition observer : Callback := CallbackHandle 0.

(** One building added to a fresh manager that has an observer. *)
Definition oneBuilding : MultiBuildingManager :=
  after (perform (Add 1700000000000 mockBuildingInsights mockLatLng1
                    "Test Address 123" None None)
           (constructor (Some observer))).

Definition oneBuildingId : string := "building_37.441900_-122.143000_1700000000000".

(** Two buildings, the second one on configuration 1. *)
Definition twoBuildings : MultiBuildingManager :=
  after (perform (Add 1700000000001 mockBuildingInsights mockLatLng2
                    "Building 2" (Some 1%float) None)
           oneBuilding).

(** ** Other code of the repository: [utils.ts] and the list component *)

(** [Array.prototype.findIndex]: the index of the first element the
    predicate accepts, [-1] when it accepts none. The index is an integer
    Number; it is kept as the integer it is. *)
Fixpoint findIndex_from {A : Type} (p : A -> bool) (l : list A) (i : Z) : Z :=
  match l with
  | [] => (-1)%Z
  | x :: l' => if p x then i else findIndex_from p l' (i + 1)%Z
  end.

Definition findIndex {A : Type} (p : A -> bool) (l : list A) : Z :=
  findIndex_from p l 0%Z.

(** [findSolarConfig] of [utils.ts]; [a >= b] is [b <= a] of IEEE 754. *)
Definition findSolarConfig (solarPanelConfigs : list SolarPanelConfig)
    (yearlyKwhEnergyConsumption panelCapacityRatio dcToAcDerate : float) : Z :=
  findIndex
    (fun config =>
       (yearlyKwhEnergyConsumption
        <=? yearlyEnergyDcKwh config * panelCapacityRatio * dcToAcDerate)%float)
    solarPanelConfigs.

(** The script of the list component ([MultiBuildingList.svelte]): the two
    variables of the inline nickname editor. *)
Record MultiBuildingList : Type := {
  editingNickname : option string;
  tempNickname : string
}.

(** [handleEditNickname] of [MultiBuildingSection.svelte], which that
    section hands to the list as [onEditNickname]; the manager of
    [buildingManager?.] is there (the page creates it when it mounts). *)
Definition handleEditNickname (id : string) (nickname : string) : M unit :=
  updateBuildingNickname id nickname ;; ret tt.

(** [building.nickname || ''] *)
Definition nicknameOrEmpty (building : SelectedBuilding) : string :=
  match nickname building with
  | Some s => s
  | None => EmptyString
  end.

Definition startEditNickname (building : SelectedBuilding) (component : MultiBuildingList)
  : MultiBuildingList :=
  {| editingNickname := Some (id building); tempNickname := nicknameOrEmpty building |}.

(** The text field is bound to [tempNickname]: typing assigns it. *)
Definition inputNickname (text : string) (component : MultiBuildingList) : MultiBuildingList :=
  {| editingNickname := editingNickname component; tempNickname := text |}.

Definition saveNickname (id : string) (component : MultiBuildingList) : M MultiBuildingList :=
  handleEditNickname id (tempNickname component) ;;
  ret {| editingNickname := None; tempNickname := tempNickname component |}.

Definition cancelEdit (component : MultiBuildingList) : MultiBuildingList :=
  {| editingNickname := None; tempNickname := EmptyString |}.

(** [handleKeydown(event, id)], on [event.key]. *)
Definition handleKeydown (key : string) (id : string) (component : MultiBuildingList)
  : M MultiBuildingList :=
  if String.eqb key "Enter" then saveNickname id component
  else if String.eqb key "Escape" then ret (cancelEdit component)
  else ret component.

(** A Number that is neither NaN nor an infinity. *)
Definition isFiniteNumber (x : float) : bool :=
  match Prim2SF x with
  | S754_zero _ | S754_finite _ _ _ => true
  | _ => false
  end.

(** The entry that [addBuilding] creates. *)
Definition newBuilding (now : Z) (ins : BuildingInsightsResponse) (loc : LatLng)
    (addr : string) (cfg : option float) (nick : option string) : SelectedBuilding :=
  {| id := generateId now loc; buildingInsights := ins;
     configId := orDefault 0%float cfg; location := loc; address := addr;
     nickname := Some (nicknameOr nick addr); boundary := None; panels := [];
     isActive := true |}.

(** The entries that are not held under [k]. *)
Definition others (k : string) (l : list SelectedBuilding) : list SelectedBuilding :=
  filter (fun x => negb (String.eqb (id x) k)) l.

(** The entries, with [v] where the entry of id [k] stands. *)
Definition substitute (k : string) (v : SelectedBuilding) (l : list SelectedBuilding)
  : list SelectedBuilding :=
  map (fun x => if String.eqb (id x) k then v else x) l.

(** What identifies an entry. *)
Definition sameIdentity (b' b : SelectedBuilding) : Prop :=
  id b' = id b
  /\ buildingInsights b' = buildingInsights b
  /\ location b' = location b
  /\ address b' = address b.

(** The call is an [addBuilding]. *)
Definition isAdd (c : Mutation) : bool :=
  match c with
  | Add _ _ _ _ _ _ => true
  | _ => false
  end.

(** The entries of the fixtures [oneBuilding] and [twoBuildings]. *)
Definition firstEntry : SelectedBuilding :=
  newBuilding 1700000000000 mockBuildingInsights mockLatLng1 "Test Address 123" None None.

Definition secondEntry : SelectedBuilding :=
  newBuilding 1700000000001 mockBuildingInsights mockLatLng2 "Building 2"
    (Some 1%float) None.

Definition closedEditor : MultiBuildingList :=
  {| editingNickname := None; tempNickname := EmptyString |}.

(** The natural number a Number is, when it is one: the Number is read as
    its mantissa times a power of two. *)
Definition denotesIndex (x : float) (i : nat) : Prop :=
  match Prim2SF x with
  | S754_zero _ => i = 0%nat
  | S754_finite false m e =>
      (Z.of_nat i * 2 ^ Z.max 0 (- e) = Zpos m * 2 ^ Z.max 0 e)%Z
  | _ => False
  end.

(** [c] is the configuration of [b] that stands at the index [configId b]
    is, counted from 0 in the list of the building's configurations. *)
Definition chosenConfig (b : SelectedBuilding) (c : SolarPanelConfig) : Prop :=
  exists i,
    denotesIndex (configId b) i
    /\ nth_error (solarPanelConfigs (solarPotential (buildingInsights b))) i = Some c.

(** Three buildings: the two of [twoBuildings] and a third one, on
    configuration 2, that was deactivated. *)
Definition thirdLatLng : LatLng := {| lat := 40.7128; lng := -74.006 |}.

Definition thirdEntryId : string := "building_40.712800_-74.006000_1700000000002".

Definition threeBuildings : MultiBuildingManager :=
  after (perform (ToggleActive thirdEntryId)
           (after (perform (Add 1700000000002 mockBuildingInsights thirdLatLng
                              "Broadway 1, New York" (Some 2%float) None)
                     twoBuildings))).

(** ** Facts about the map *)

Module JSMapFacts.
Import JSMap.

Lemma has_get k m : has k m = true <-> get k m <> None.
Proof.
  induction m as [|[k' v] m IH]; simpl.
  - split; [discriminate | congruence].
  - destruct (String.eqb k k'); [split; [discriminate | reflexivity] | exact IH].
Qed.

Lemma has_false_get k m : has k m = false <-> get k m = None.
Proof.
  induction m as [|[k' v] m IH]; simpl.
  - split; reflexivity.
  - destruct (String.eqb k k'); [split; discriminate | exact IH].
Qed.

Lemma has_In k m : has k m = true <-> In k (keys m).
Proof.
  induction m as [|[k' v] m IH]; simpl.
  - split; [discriminate | tauto].
  - destruct (String.eqb_spec k k') as [->|ne].
    + split; auto.
    + rewrite IH. split; [auto | intros [e|i]; [congruence | exact i]].
Qed.

Lemma keys_replace k v m : keys (replace k v m) = keys m.
Proof.
  induction m as [|[k' v'] m IH]; simpl; [reflexivity|].
  destruct (String.eqb k k'); simpl; [reflexivity | now rewrite IH].
Qed.

Lemma length_replace k v m : List.length (replace k v m) = List.length m.
Proof.
  induction m as [|[k' v'] m IH]; simpl; [reflexivity|].
  destruct (String.eqb k k'); simpl; [reflexivity | now rewrite IH].
Qed.

Lemma get_replace_same k v m :
  get k m <> None -> get k (replace k v m) = Some v.
Proof.
  induction m as [|[k' v'] m IH]; simpl; [congruence|].
  destruct (String.eqb k k') eqn:E; simpl; rewrite E; auto.
Qed.

Lemma get_replace_other k k' v m :
  k' <> k -> get k' (replace k v m) = get k' m.
Proof.
  intros ne. induction m as [|[k0 v0] m IH]; simpl; [reflexivity|].
  destruct (String.eqb_spec k k0) as [->|nk]; simpl.
  - destruct (String.eqb_spec k' k0); [congruence | reflexivity].
  - destruct (String.eqb k' k0); [reflexivity | exact IH].
Qed.

Lemma replace_replace k v w m : replace k w (replace k v m) = replace k w m.
Proof.
  induction m as [|[k' v'] m IH]; simpl; [reflexivity|].
  destruct (String.eqb k k') eqn:E; simpl; rewrite E; [reflexivity | now rewrite IH].
Qed.

Lemma replace_get k v m : get k m = Some v -> replace k v m = m.
Proof.
  induction m as [|[k' v'] m IH]; simpl; [reflexivity|].
  destruct (String.eqb k k'); intros H; [congruence | now rewrite IH].
Qed.

Lemma get_set_same k v m : get k (set k v m) = Some v.
Proof.
  unfold set. destruct (has k m) eqn:H.
  - apply get_replace_same, has_get, H.
  - apply has_false_get in H. induction m as [|[k' v'] m IH]; simpl.
    + now rewrite String.eqb_refl.
    + simpl in H. destruct (String.eqb k k'); [discriminate | auto].
Qed.

Lemma get_app_other k k' v m : k' <> k -> get k' (m ++ [(k, v)])%list = get k' m.
Proof.
  intros ne. induction m as [|[k0 v0] m IH]; simpl.
  - destruct (String.eqb_spec k' k); [congruence | reflexivity].
  - destruct (String.eqb k' k0); [reflexivity | exact IH].
Qed.

Lemma get_set_other k k' v m : k' <> k -> get k' (set k v m) = get k' m.
Proof.
  intros ne. unfold set. destruct (has k m).
  - now apply get_replace_other.
  - now apply get_app_other.
Qed.

Lemma keys_delete_incl k m x : In x (keys (delete k m)) -> In x (keys m).
Proof.
  induction m as [|[k' v'] m IH]; simpl; [tauto|].
  destruct (String.eqb k k'); simpl; [auto | intros [e|i]; auto].
Qed.

Lemma NoDup_delete k m : NoDup (keys m) -> NoDup (keys (delete k m)).
Proof.
  induction m as [|[k' v'] m IH]; simpl; intros nd; [constructor|].
  inversion nd as [|? ? notin nd']; subst.
  destruct (String.eqb k k'); simpl; [exact nd'|].
  constructor; [|auto]. intros i. apply notin. eapply keys_delete_incl, i.
Qed.

Lemma NoDup_set k v m : NoDup (keys m) -> NoDup (keys (set k v m)).
Proof.
  intros nd. unfold set. destruct (has k m) eqn:H.
  - now rewrite keys_replace.
  - unfold keys. rewrite map_app. simpl.
    apply NoDup_app; [exact nd | repeat constructor; intros [] |].
    intros a ia [<-|[]]. apply has_In in ia. congruence.
Qed.

End JSMapFacts.

(** ** The methods' equations *)

Ltac run :=
  cbv beta delta
    [bind ret buildings_get buildings_update buildings_set buildings_delete
     buildings_clear buildings_values buildings_entries assign readCallback emit
     getBuilding getAllBuildings getActiveBuildings result after trace all active
     live updated] iota zeta;
  cbn [fst snd this_buildings this_onUpdateCallback app].

Lemma notifyUpdate_eq this : notifyUpdate this = (tt, this, notification this).
Proof.
  unfold notifyUpdate, notification. run.
  destruct (this_onUpdateCallback this); reflexivity.
Qed.

Lemma forEach_setMap_null ps this :
  forEach setMap_null ps this = (tt, this, map SetMapNull ps).
Proof.
  induction ps as [|p ps IH]; simpl; [reflexivity|].
  unfold bind, setMap_null at 1, emit. rewrite IH. reflexivity.
Qed.

Lemma detach_eq b this : detach b this = (tt, this, detachEvents b).
Proof.
  unfold detach, detachEvents, bind.
  destruct (boundary b); cbv [setMap_null emit ret];
    rewrite forEach_setMap_null; reflexivity.
Qed.

Lemma forEach_detach bs this :
  forEach detach bs this = (tt, this, flat_map detachEvents bs).
Proof.
  induction bs as [|b bs IH]; simpl; [reflexivity|].
  unfold bind. rewrite detach_eq, IH. reflexivity.
Qed.

Lemma addBuilding_eq now ins loc addr cfg nick this :
  let id := generateId now loc in
  let building :=
    {| id := id; buildingInsights := ins; configId := orDefault 0%float cfg;
       location := loc; address := addr;
       nickname := Some (nicknameOr nick addr); boundary := None; panels := [];
       isActive := true |} in
  let this' := updated (JSMap.set id building) this in
  addBuilding now ins loc addr cfg nick this = (id, this', notification this').
Proof.
  intros. unfold addBuilding. run. rewrite notifyUpdate_eq.
  cbn. now rewrite app_nil_r.
Qed.

Lemma removeBuilding_live id b this :
  JSMap.get id (this_buildings this) = Some b ->
  let this' := updated (JSMap.delete id) this in
  removeBuilding id this = (true, this', (detachEvents b ++ notification this')%list).
Proof.
  intros H. unfold removeBuilding. run. rewrite H.
  run. rewrite detach_eq. run. rewrite notifyUpdate_eq. cbn.
  now rewrite app_nil_r.
Qed.

Lemma removeBuilding_absent id this :
  JSMap.get id (this_buildings this) = None ->
  removeBuilding id this = (false, this, []).
Proof. intros H. unfold removeBuilding. run. now rewrite H. Qed.

Lemma updateBuildingConfig_live id c b this :
  JSMap.get id (this_buildings this) = Some b ->
  let this' := updated (JSMap.replace id (set_configId c b)) this in
  updateBuildingConfig id c this = (true, this', notification this').
Proof.
  intros H. unfold updateBuildingConfig. run. rewrite H. run. rewrite H.
  rewrite notifyUpdate_eq. cbn. now rewrite app_nil_r.
Qed.

Lemma updateBuildingNickname_live id n b this :
  JSMap.get id (this_buildings this) = Some b ->
  let this' := updated (JSMap.replace id (set_nickname (Some n) b)) this in
  updateBuildingNickname id n this = (true, this', notification this').
Proof.
  intros H. unfold updateBuildingNickname. run. rewrite H. run. rewrite H.
  rewrite notifyUpdate_eq. cbn. now rewrite app_nil_r.
Qed.

Lemma toggleBuildingActive_live id b this :
  JSMap.get id (this_buildings this) = Some b ->
  let this' := updated (JSMap.replace id (set_isActive (negb (isActive b)) b)) this in
  toggleBuildingActive id this = (true, this', notification this').
Proof.
  intros H. unfold toggleBuildingActive. run. rewrite H. run. rewrite H.
  rewrite notifyUpdate_eq. cbn. now rewrite app_nil_r.
Qed.

Lemma setBuildingPanels_live id ps b this :
  JSMap.get id (this_buildings this) = Some b ->
  setBuildingPanels id ps this
  = (true, updated (JSMap.replace id (set_panels ps b)) this, []).
Proof.
  intros H. unfold setBuildingPanels. run. rewrite H. run. now rewrite H.
Qed.

Lemma setBuildingBoundary_live id p b this :
  JSMap.get id (this_buildings this) = Some b ->
  setBuildingBoundary id p this
  = (true, updated (JSMap.replace id (set_boundary (Some p) b)) this, []).
Proof.
  intros H. unfold setBuildingBoundary. run. rewrite H. run. now rewrite H.
Qed.

Lemma updateBuildingConfig_absent id c this :
  JSMap.get id (this_buildings this) = None ->
  updateBuildingConfig id c this = (false, this, []).
Proof. intros H. unfold updateBuildingConfig. run. now rewrite H. Qed.

Lemma updateBuildingNickname_absent id n this :
  JSMap.get id (this_buildings this) = None ->
  updateBuildingNickname id n this = (false, this, []).
Proof. intros H. unfold updateBuildingNickname. run. now rewrite H. Qed.

Lemma toggleBuildingActive_absent id this :
  JSMap.get id (this_buildings this) = None ->
  toggleBuildingActive id this = (false, this, []).
Proof. intros H. unfold toggleBuildingActive. run. now rewrite H. Qed.

Lemma setBuildingPanels_absent id ps this :
  JSMap.get id (this_buildings this) = None ->
  setBuildingPanels id ps this = (false, this, []).
Proof. intros H. unfold setBuildingPanels. run. now rewrite H. Qed.

Lemma setBuildingBoundary_absent id p this :
  JSMap.get id (this_buildings this) = None ->
  setBuildingBoundary id p this = (false, this, []).
Proof. intros H. unfold setBuildingBoundary. run. now rewrite H. Qed.

Lemma clear_eq this :
  let this' := updated (fun _ => JSMap.empty) this in
  clear this
  = (tt, this',
     (flat_map detachEvents (JSMap.values (this_buildings this))
      ++ notification this')%list).
Proof.
  unfold clear. run. rewrite forEach_detach. run. rewrite notifyUpdate_eq.
  reflexivity.
Qed.

Lemma getAggregatedData_eq r d this :
  getAggregatedData r d this
  = (aggregate (orDefault 1.0%float r) (orDefault 0.85%float d) (active this),
     this, []).
Proof. reflexivity. Qed.

(** ** Toggling *)

Lemma set_isActive_involutive (b : SelectedBuilding) :
  set_isActive (negb (isActive (set_isActive (negb (isActive b)) b)))
    (set_isActive (negb (isActive b)) b) = b.
Proof. destruct b as [? ? ? ? ? ? ? ? a]. unfold set_isActive. simpl. now rewrite negb_involutive. Qed.

(** C7. On a live id, two calls of [toggleBuildingActive] in a row both
    return [true]; the first one flips the entry's [isActive] and nothing
    else, the second one gives back the manager the first one started from:
    every entry, every field, the order of the entries. *)
Theorem toggle_twice_restores (this : MultiBuildingManager) (id : string)
    (b : SelectedBuilding) :
  result (getBuilding id this) = Some b ->
  let once := toggleBuildingActive id this in
  let twice := toggleBuildingActive id (after once) in
  result once = true
  /\ result (getBuilding id (after once)) = Some (set_isActive (negb (isActive b)) b)
  /\ result twice = true
  /\ after twice = this.
Proof.
  intros H once twice. subst once twice.
  assert (H' : JSMap.get id (this_buildings this) = Some b) by exact H.
  rewrite (toggleBuildingActive_live id b this H').
  set (b' := set_isActive (negb (isActive b)) b).
  assert (G : JSMap.get id (this_buildings (updated (JSMap.replace id b') this)) = Some b').
  { apply JSMapFacts.get_replace_same. congruence. }
  unfold after, result, getBuilding, buildings_get. cbn [fst snd].
  split; [reflexivity|]. split; [now rewrite G|].
  rewrite (toggleBuildingActive_live id b' _ G). cbn [fst snd].
  split; [reflexivity|].
  unfold b'. rewrite set_isActive_involutive. unfold updated. cbn.
  rewrite JSMapFacts.replace_replace, (JSMapFacts.replace_get _ _ _ H').
  now destruct this.
Qed.

(** ** Aggregation: no active entry, and purity *)

(** C6. With no active entry, [getAggregatedData] returns normally, whatever
    the ratio and the derate (given or left to their defaults): every total
    is 0, [averagePanelCapacityWatts] is 0 (the division by the number of
    active entries is not evaluated), [buildings] is empty. *)
Theorem aggregate_without_active_entries (this : MultiBuildingManager)
    (panelCapacityRatio dcToAcDerate : option float) :
  active this = [] ->
  result (getAggregatedData panelCapacityRatio dcToAcDerate this)
  = Normal
      {| totalPanelsCount := 0; totalYearlyEnergyDcKwh := 0; totalAreaMeters2 := 0;
         totalMaxArrayPanelsCount := 0; totalMaxArrayAreaMeters2 := 0;
         totalRoofArea := 0; buildings := []; averagePanelCapacityWatts := 0;
         totalCarbonOffsetKgPerYear := 0 |}.
Proof.
  intros H. rewrite getAggregatedData_eq. cbn [result fst]. rewrite H.
  reflexivity.
Qed.

Lemma forOf_total (body : Totals -> SelectedBuilding -> Completion Totals)
    (l : list SelectedBuilding) :
  (forall acc b, In b l -> exists acc', body acc b = Normal acc') ->
  forall acc, exists acc', forOf body acc l = Normal acc'.
Proof.
  induction l as [|b l IH]; intros ok acc; simpl.
  - now exists acc.
  - destruct (ok acc b (or_introl eq_refl)) as [acc' ->].
    apply IH. intros; apply ok; now right.
Qed.

Lemma accumulate_total r d acc b :
  configOf b <> None -> exists acc', accumulate r d acc b = Normal acc'.
Proof.
  intros H. unfold accumulate. destruct (configOf b); [eauto | congruence].
Qed.

Lemma aggregate_total r d l :
  Forall (fun b => configOf b <> None) l ->
  exists agg, aggregate r d l = Normal agg /\ buildings agg = l.
Proof.
  intros H. unfold aggregate.
  destruct (forOf_total (accumulate r d) l) with (acc := zeroTotals) as [acc ->].
  - intros acc b i. apply accumulate_total. rewrite Forall_forall in H. now apply H.
  - eexists. split; reflexivity.
Qed.

Lemma aggregate_buildings r d l agg :
  aggregate r d l = Normal agg -> buildings agg = l.
Proof.
  unfold aggregate. destruct (forOf _ _ _); [|discriminate].
  intros [= <-]. reflexivity.
Qed.

(** C10. [getAggregatedData] is a query: whatever its arguments, the manager
    after the call is the manager before it and the call makes no outside
    call (no notification); when it returns, [buildings] is the sequence
    [getActiveBuildings] gives, the active entries in insertion order; and it
    does return whenever every active entry's [configId] names one of its
    configurations. *)
Theorem getAggregatedData_is_a_query (this : MultiBuildingManager)
    (panelCapacityRatio dcToAcDerate : option float) :
  let o := getAggregatedData panelCapacityRatio dcToAcDerate this in
  after o = this
  /\ trace o = []
  /\ (forall agg, result o = Normal agg -> buildings agg = active this)
  /\ active this = filter isActive (all this)
  /\ (Forall (fun b => configOf b <> None) (active this) ->
      exists agg, result o = Normal agg /\ buildings agg = active this).
Proof.
  intros o. subst o. rewrite getAggregatedData_eq. cbn [after result trace fst snd].
  repeat split.
  - intros agg. apply aggregate_buildings.
  - apply aggregate_total.
Qed.

(** ** What holds in every reachable state *)

Section ForallMap.
Variable P : string * SelectedBuilding -> Prop.

Lemma get_In k v m : JSMap.get k m = Some v -> In (k, v) m.
Proof.
  induction m as [|[k' v'] m IH]; simpl; [discriminate|].
  destruct (String.eqb_spec k k') as [->|ne].
  - intros [= ->]. now left.
  - intros H. right. auto.
Qed.

Lemma Forall_replace k v m : Forall P m -> P (k, v) -> Forall P (JSMap.replace k v m).
Proof.
  intros H pv. induction H as [|[k' v'] m pk H IH]; simpl; [constructor|].
  destruct (String.eqb_spec k k') as [->|ne]; constructor; auto.
Qed.

Lemma Forall_set k v m : Forall P m -> P (k, v) -> Forall P (JSMap.set k v m).
Proof.
  intros H pv. unfold JSMap.set. destruct (JSMap.has k m).
  - now apply Forall_replace.
  - apply Forall_app. split; [exact H | now constructor].
Qed.

Lemma Forall_delete k m : Forall P m -> Forall P (JSMap.delete k m).
Proof.
  intros H. induction H as [|[k' v'] m pk H IH]; simpl; [constructor|].
  destruct (String.eqb k k'); [exact H | now constructor].
Qed.
End ForallMap.

Lemma Inv_replace this k b f :
  Inv this ->
  JSMap.get k (this_buildings this) = Some b ->
  id (f b) = id b -> location (f b) = location b ->
  Inv (updated (JSMap.replace k (f b)) this).
Proof.
  intros [nd ok] H fid floc. split; cbn.
  - now rewrite JSMapFacts.keys_replace.
  - apply Forall_replace; [exact ok|].
    apply get_In in H. rewrite Forall_forall in ok. destruct (ok _ H) as [e [now e']].
    cbn in *. split; cbn; [congruence|]. exists now. congruence.
Qed.

Lemma Inv_perform this c : Inv this -> Inv (after (perform c this)).
Proof.
  intros I. destruct c as [now ins loc addr cfg nick|k|k cfg|k nick|k|k ps|k p|];
    unfold perform; try unfold bind;
    try (destruct (JSMap.get k (this_buildings this)) as [b|] eqn:G).
  - rewrite addBuilding_eq. cbn. destruct I as [nd ok]. split; cbn.
    + now apply JSMapFacts.NoDup_set.
    + apply Forall_set; [exact ok|]. split; cbn; [reflexivity | now exists now].
  - rewrite (removeBuilding_live _ _ _ G). cbn. destruct I as [nd ok]. split; cbn.
    + now apply JSMapFacts.NoDup_delete.
    + now apply Forall_delete.
  - now rewrite (removeBuilding_absent _ _ G).
  - rewrite (updateBuildingConfig_live _ _ _ _ G). cbn.
    now apply (Inv_replace this k b (set_configId cfg)).
  - now rewrite (updateBuildingConfig_absent _ _ _ G).
  - rewrite (updateBuildingNickname_live _ _ _ _ G). cbn.
    now apply (Inv_replace this k b (set_nickname (Some nick))).
  - now rewrite (updateBuildingNickname_absent _ _ _ G).
  - rewrite (toggleBuildingActive_live _ _ _ G). cbn.
    now apply (Inv_replace this k b (set_isActive (negb (isActive b)))).
  - now rewrite (toggleBuildingActive_absent _ _ G).
  - rewrite (setBuildingPanels_live _ _ _ _ G). cbn.
    now apply (Inv_replace this k b (set_panels ps)).
  - now rewrite (setBuildingPanels_absent _ _ _ G).
  - rewrite (setBuildingBoundary_live _ _ _ _ G). cbn.
    now apply (Inv_replace this k b (set_boundary (Some p))).
  - now rewrite (setBuildingBoundary_absent _ _ _ G).
  - rewrite clear_eq. cbn. split; cbn; constructor.
Qed.

Lemma Reachable_Inv this : Reachable this -> Inv this.
Proof.
  induction 1 as [cb|this c _ IH].
  - split; cbn; constructor.
  - now apply Inv_perform.
Qed.

Lemma Inv_ids this : Inv this -> map id (all this) = JSMap.keys (this_buildings this).
Proof.
  intros [_ ok]. unfold all. run. unfold JSMap.values, JSMap.keys.
  induction ok as [|[k v] m [e _] _ IH]; simpl; [reflexivity|].
  cbn in e. now rewrite e, IH.
Qed.

(** The ids of the live entries are the keys they are held under. *)
Lemma live_iff_held this k :
  Reachable this -> (live k this <-> In k (map id (all this))).
Proof.
  intros R. rewrite (Inv_ids _ (Reachable_Inv _ R)). unfold live. run.
  rewrite <- JSMapFacts.has_In, JSMapFacts.has_get. reflexivity.
Qed.

(** The queries leave the manager as it is: the states the manager goes
    through are those [Reachable] describes. *)
Lemma queries_keep_manager this :
  (forall k, after (getBuilding k this) = this)
  /\ after (getAllBuildings this) = this
  /\ after (getActiveBuildings this) = this
  /\ (forall point threshold, after (hasBuilding point threshold this) = this)
  /\ (forall r d, after (getAggregatedData r d this) = this).
Proof. repeat split. Qed.

(** ** Calls on an id that is not live *)

(** C5. In every reachable state, on an id that no live entry holds,
    [removeBuilding], [updateBuildingConfig], [updateBuildingNickname],
    [toggleBuildingActive], [setBuildingPanels] and [setBuildingBoundary]
    each return [false], leave the manager as it was and make no call at all
    (no notification, no detach). The answer is the boolean: these methods
    have no throwing outcome. *)
Theorem not_found_returns_false (this : MultiBuildingManager) (unknown : string) :
  Reachable this ->
  ~ In unknown (map id (all this)) ->
  removeBuilding unknown this = (false, this, [])
  /\ (forall configId, updateBuildingConfig unknown configId this = (false, this, []))
  /\ (forall nickname, updateBuildingNickname unknown nickname this = (false, this, []))
  /\ toggleBuildingActive unknown this = (false, this, [])
  /\ (forall panels, setBuildingPanels unknown panels this = (false, this, []))
  /\ (forall boundary, setBuildingBoundary unknown boundary this = (false, this, [])).
Proof.
  intros R absent.
  assert (H : JSMap.get unknown (this_buildings this) = None).
  { destruct (JSMap.get unknown (this_buildings this)) eqn:G; [|reflexivity].
    exfalso. apply absent. apply (live_iff_held this unknown R).
    unfold live. run. rewrite G. discriminate. }
  repeat split; intros.
  - now apply removeBuilding_absent.
  - now apply updateBuildingConfig_absent.
  - now apply updateBuildingNickname_absent.
  - now apply toggleBuildingActive_absent.
  - now apply setBuildingPanels_absent.
  - now apply setBuildingBoundary_absent.
Qed.

(** ** Proximity match *)





(** ** The sums of [getAggregatedData] *)

Lemma forOf_accumulate (panelCapacityRatio dcToAcDerate : float)
    (l : list SelectedBuilding) :
  forall (configs : list SolarPanelConfig) (acc : Totals),
    map configOf l = map Some configs ->
    forOf (accumulate panelCapacityRatio dcToAcDerate) acc l
    = Normal
        {| acc_totalPanelsCount :=
             fold_left PrimFloat.add (map (panelsTerm panelCapacityRatio) configs)
               (acc_totalPanelsCount acc);
           acc_totalYearlyEnergyDcKwh :=
             fold_left PrimFloat.add
               (map (energyTerm panelCapacityRatio dcToAcDerate) configs)
               (acc_totalYearlyEnergyDcKwh acc);
           acc_totalMaxArrayPanelsCount :=
             fold_left PrimFloat.add
               (map (fun b => maxArrayPanelsCount (solarPotential (buildingInsights b))) l)
               (acc_totalMaxArrayPanelsCount acc);
           acc_totalMaxArrayAreaMeters2 :=
             fold_left PrimFloat.add
               (map (fun b => maxArrayAreaMeters2 (solarPotential (buildingInsights b))) l)
               (acc_totalMaxArrayAreaMeters2 acc);
           acc_totalRoofArea :=
             fold_left PrimFloat.add
               (map (fun b => areaMeters2 (wholeRoofStats (solarPotential (buildingInsights b)))) l)
               (acc_totalRoofArea acc);
           acc_totalCarbonOffset :=
             fold_left PrimFloat.add
               (map (carbonTerm panelCapacityRatio dcToAcDerate) (combine l configs))
               (acc_totalCarbonOffset acc);
           acc_totalPanelCapacity :=
             fold_left PrimFloat.add
               (map (fun b => panelCapacityWatts (solarPotential (buildingInsights b))) l)
               (acc_totalPanelCapacity acc) |}.
Proof.
  induction l as [|b l IH]; intros [|c configs] acc E; try discriminate.
  - now destruct acc.
  - simpl in E. injection E as Ec El. simpl forOf. unfold accumulate at 1.
    rewrite Ec. rewrite (IH configs _ El). reflexivity.
Qed.

Lemma denotesIndex_arrayIndex (x : float) (i : nat) :
  denotesIndex x i -> JS.arrayIndex x = Some (Z.of_nat i).
Proof.
  unfold denotesIndex, JS.arrayIndex.
  destruct (Prim2SF x) as [s|s| |s m e]; try contradiction.
  - now intros ->.
  - destruct s; [contradiction|]. intros E.
    destruct (Z.leb_spec 0 e) as [pos|neg].
    + rewrite Z.max_l, Z.max_r in E by lia. rewrite Z.pow_0_r, Z.mul_1_r in E.
      now rewrite E.
    + rewrite Z.max_r, Z.max_l in E by lia. rewrite Z.pow_0_r, Z.mul_1_r in E.
      assert (P : (0 < 2 ^ (- e))%Z) by (apply Z.pow_pos_nonneg; lia).
      rewrite Z.shiftr_div_pow2, Z.shiftl_mul_pow2 by lia.
      rewrite <- E, Z.div_mul by lia. now rewrite Z.eqb_refl.
Qed.

Lemma chosenConfig_configOf (b : SelectedBuilding) (c : SolarPanelConfig) :
  chosenConfig b c -> configOf b = Some c.
Proof.
  intros (i & D & N). unfold configOf, JS.arrayGet.
  rewrite (denotesIndex_arrayIndex _ _ D).
  assert (L : (i < List.length (solarPanelConfigs (solarPotential (buildingInsights b))))%nat).
  { apply nth_error_Some. congruence. }
  destruct (Z.ltb_spec (Z.of_nat i)
              (Z.of_nat (List.length (solarPanelConfigs (solarPotential (buildingInsights b))))));
    [|lia].
  now rewrite Nat2Z.id.
Qed.

Lemma chosenConfigs_configOf (l : list SelectedBuilding) (configs : list SolarPanelConfig) :
  Forall2 chosenConfig l configs -> map configOf l = map Some configs.
Proof.
  induction 1 as [|b c l configs H _ IH]; simpl; [reflexivity|].
  now rewrite (chosenConfig_configOf b c H), IH.
Qed.

(** C1. Let the active entries be the entries whose [isActive] is set, in
    insertion order, and [configs] their chosen configurations: for each
    one the element of its [solarPanelConfigs] at the index its [configId]
    is (so that every such index is in range). Then [getAggregatedData(r, d)]
    returns, and [totalPanelsCount] is the sum of floor(panelsCount * r);
    [totalYearlyEnergyDcKwh] the sum of yearlyEnergyDcKwh * r * d;
    [totalMaxArrayPanelsCount], [totalMaxArrayAreaMeters2] and
    [totalRoofArea] the sums of the buildings' own figures;
    [totalCarbonOffsetKgPerYear] the sum of
    (yearlyEnergyDcKwh * r * d * carbonOffsetFactorKgPerMwh) / 1000;
    [totalAreaMeters2] is [totalPanelsCount * 2]; [buildings] is the
    sequence of the active entries. Sums run over the active entries only,
    from 0, in insertion order. With a single active entry of 50 panels and
    20000 kWh, r = 1 and d = 0.85, [totalYearlyEnergyDcKwh] is 17000. *)
Theorem getAggregatedData_sums (this : MultiBuildingManager) (r d : float)
    (configs : list SolarPanelConfig) :
  let entries := filter isActive (all this) in
  Forall2 chosenConfig entries configs ->
  exists agg,
    result (getAggregatedData (Some r) (Some d) this) = Normal agg
    /\ totalPanelsCount agg = fsum (map (panelsTerm r) configs)
    /\ totalYearlyEnergyDcKwh agg = fsum (map (energyTerm r d) configs)
    /\ totalMaxArrayPanelsCount agg
       = fsum (map (fun b => maxArrayPanelsCount (solarPotential (buildingInsights b)))
                 entries)
    /\ totalMaxArrayAreaMeters2 agg
       = fsum (map (fun b => maxArrayAreaMeters2 (solarPotential (buildingInsights b)))
                 entries)
    /\ totalRoofArea agg
       = fsum (map (fun b => areaMeters2 (wholeRoofStats (solarPotential (buildingInsights b))))
                 entries)
    /\ totalCarbonOffsetKgPerYear agg
       = fsum (map (carbonTerm r d) (combine entries configs))
    /\ totalAreaMeters2 agg = (totalPanelsCount agg * 2)%float
    /\ buildings agg = entries
    /\ (forall c,
          configs = [c] -> panelsCount c = 50%float ->
          yearlyEnergyDcKwh c = 20000%float -> r = 1.0%float -> d = 0.85%float ->
          totalYearlyEnergyDcKwh agg = 17000%float).
Proof.
  intros entries chosen. pose proof (chosenConfigs_configOf _ _ chosen) as E.
  rewrite getAggregatedData_eq. cbn [result fst orDefault]. unfold aggregate.
  change (active this) with entries.
  rewrite (forOf_accumulate r d _ configs zeroTotals E).
  eexists. split; [reflexivity|].
  cbn [totalPanelsCount totalYearlyEnergyDcKwh totalMaxArrayPanelsCount
       totalMaxArrayAreaMeters2 totalRoofArea totalCarbonOffsetKgPerYear
       totalAreaMeters2 buildings zeroTotals acc_totalPanelsCount
       acc_totalYearlyEnergyDcKwh acc_totalMaxArrayPanelsCount
       acc_totalMaxArrayAreaMeters2 acc_totalRoofArea acc_totalCarbonOffset].
  repeat (split; [reflexivity|]).
  intros c -> _ e -> ->. unfold fsum, energyTerm. cbn. rewrite e. reflexivity.
Qed.

(** ** Identifiers *)

Lemma append_assoc (a b c : string) : (a ++ b) ++ c = a ++ (b ++ c).
Proof. induction a as [|x a IH]; simpl; [reflexivity | now rewrite IH]. Qed.

Lemma lastField_plain (d : string) : hasUnderscore d = false -> lastField d = d.
Proof. destruct d as [|c d]; [reflexivity|]. intros H. unfold lastField. now rewrite H. Qed.

Lemma hasUnderscore_app (a b : string) :
  hasUnderscore (a ++ b) = hasUnderscore a || hasUnderscore b.
Proof. induction a as [|x a IH]; simpl; [reflexivity | now rewrite IH, orb_assoc]. Qed.

Lemma lastField_app (a d : string) :
  hasUnderscore d = false -> lastField (a ++ "_" ++ d) = d.
Proof.
  intros H. induction a as [|x a IH].
  - simpl. now apply lastField_plain.
  - change (lastField (String x (a ++ "_" ++ d))
            = d). cbn [lastField].
    replace (hasUnderscore (String x (a ++ "_" ++ d))) with true; [exact IH|].
    symmetry. cbn [hasUnderscore]. rewrite hasUnderscore_app. cbn.
    now rewrite !orb_true_r.
Qed.

Lemma uint_no_underscore (d : Decimal.uint) :
  hasUnderscore (NilEmpty.string_of_uint d) = false.
Proof. induction d; simpl; auto. Qed.

Lemma decimal_no_underscore (z : Z) : hasUnderscore (JS.decimal z) = false.
Proof.
  unfold JS.decimal, NilZero.string_of_int, NilZero.string_of_uint.
  destruct (Z.to_int z) as [d|d]; destruct d; simpl; auto using uint_no_underscore.
Qed.

Lemma to_int_proper (z : Z) :
  Z.to_int z <> Decimal.Pos Decimal.Nil /\ Z.to_int z <> Decimal.Neg Decimal.Nil.
Proof.
  destruct z as [|p|p]; simpl; split; try discriminate;
    intros [= H]; now apply (DecimalPos.Unsigned.to_uint_nonnil p).
Qed.

Lemma decimal_inj (z z' : Z) : JS.decimal z = JS.decimal z' -> z = z'.
Proof.
  intros H. apply DecimalZ.to_int_inj.
  destruct (to_int_proper z) as [a b], (to_int_proper z') as [a' b'].
  pose proof (NilZero.isi _ a b) as E. pose proof (NilZero.isi _ a' b') as E'.
  unfold JS.decimal in H. rewrite H in E. congruence.
Qed.

Lemma lastField_generateId (now : Z) (loc : LatLng) :
  lastField (generateId now loc) = JS.decimal now.
Proof.
  unfold generateId.
  replace ("building_" ++ JS.toFixed6 (lat loc) ++ "_" ++ JS.toFixed6 (lng loc)
           ++ "_" ++ JS.decimal now)
    with (("building_" ++ JS.toFixed6 (lat loc) ++ "_" ++ JS.toFixed6 (lng loc))
          ++ "_" ++ JS.decimal now)
    by now rewrite !append_assoc.
  apply lastField_app, decimal_no_underscore.
Qed.

(** The time an id was generated at can be read off the id. *)
Lemma generateId_time (now now' : Z) (loc loc' : LatLng) :
  generateId now loc = generateId now' loc' -> now = now'.
Proof.
  intros H. apply decimal_inj.
  rewrite <- (lastField_generateId now loc), <- (lastField_generateId now' loc').
  now rewrite H.
Qed.

(** Locations that agree to six decimals generate the same id at the same
    time. *)
Lemma generateId_same (now : Z) (loc loc' : LatLng) :
  JS.toFixed6 (lat loc) = JS.toFixed6 (lat loc') ->
  JS.toFixed6 (lng loc) = JS.toFixed6 (lng loc') ->
  generateId now loc = generateId now loc'.
Proof. unfold generateId. now intros -> ->. Qed.

Lemma all_updated f this : all (updated f this) = JSMap.values (f (this_buildings this)).
Proof. reflexivity. Qed.

Lemma getBuilding_updated k f this :
  result (getBuilding k (updated f this)) = JSMap.get k (f (this_buildings this)).
Proof. reflexivity. Qed.

Lemma zeros_no_underscore n : hasUnderscore (JS.zeros n) = false.
Proof. induction n; simpl; auto. Qed.

Lemma fixed6_no_underscore n : hasUnderscore (JS.fixed6 n) = false.
Proof.
  unfold JS.fixed6. rewrite !hasUnderscore_app, !decimal_no_underscore, zeros_no_underscore.
  reflexivity.
Qed.

Lemma toStringLarge_no_underscore m e : hasUnderscore (JS.toStringLarge m e) = false.
Proof.
  unfold JS.toStringLarge. destruct (JS.shortestDigits m e) as [s j].
  pose proof (decimal_no_underscore s) as H.
  destruct (JS.decimal s) as [|c [|c' rest]]; [reflexivity| |];
    cbn [hasUnderscore] in H; apply orb_false_elim in H; destruct H as [Hc Hr].
  - rewrite !hasUnderscore_app, decimal_no_underscore. cbn. now rewrite Hc.
  - rewrite !hasUnderscore_app, decimal_no_underscore. cbn [hasUnderscore] in *.
    rewrite Hc, Hr. reflexivity.
Qed.

Lemma toFixed6_no_underscore x : hasUnderscore (JS.toFixed6 x) = false.
Proof.
  unfold JS.toFixed6. destruct (Prim2SF x) as [s|s| |s m e]; try reflexivity.
  - now destruct s.
  - destruct (0 <=? e)%Z; [destruct (10 ^ 21 <=? Z.pos m * 2 ^ e)%Z|];
      rewrite hasUnderscore_app, ?toStringLarge_no_underscore, ?fixed6_no_underscore;
      now destruct s.
Qed.

(** A text without ['_'] in front of an ['_'] is read back whole. *)
Lemma first_field_inj (a a' r r' : string) :
  hasUnderscore a = false -> hasUnderscore a' = false ->
  a ++ "_" ++ r = a' ++ "_" ++ r' -> a = a' /\ r = r'.
Proof.
  revert a'. induction a as [|c a IH]; intros [|c' a'] H H' E; simpl in *.
  - injection E as E. auto.
  - injection E as Ec _. subst c'. apply orb_false_elim in H'. now destruct H'.
  - injection E as Ec _. subst c. apply orb_false_elim in H. now destruct H.
  - injection E as Ec E. subst c'. apply orb_false_elim in H, H'.
    destruct (IH a' (proj2 H) (proj2 H') E) as [-> ->]. auto.
Qed.

(** Equal ids were generated from coordinates that print alike and at the
    same time value. *)
Lemma generateId_fields (now now' : Z) (loc loc' : LatLng) :
  generateId now loc = generateId now' loc' ->
  JS.toFixed6 (lat loc) = JS.toFixed6 (lat loc')
  /\ JS.toFixed6 (lng loc) = JS.toFixed6 (lng loc')
  /\ now = now'.
Proof.
  unfold generateId. intros E. cbn [append] in E. injection E as E.
  destruct (first_field_inj _ _ _ _ (toFixed6_no_underscore _)
              (toFixed6_no_underscore _) E) as [Elat E'].
  destruct (first_field_inj _ _ _ _ (toFixed6_no_underscore _)
              (toFixed6_no_underscore _) E') as [Elng Enow].
  repeat split; auto. now apply decimal_inj.
Qed.

(** C8, as the code has it. In every reachable state the ids of the live
    entries are pairwise different, and each is the id generated from the
    entry's location at some time value. The id [addBuilding] returns is held
    by a live entry exactly when some live entry was generated at the same
    time value and at coordinates that print alike with six decimals, and
    then it is that entry's id; in every other case (another time value, or
    the same time value at another place) it is held by no live entry. On
    two adds at one location at different time values the ids differ and
    both entries are live afterwards. *)
Theorem ids_unique_and_fresh (this : MultiBuildingManager) :
  Reachable this ->
  NoDup (map id (all this))
  /\ (forall b, In b (all this) -> exists t, id b = generateId t (location b))
  /\ (forall now ins loc addr cfg nick,
        In (result (addBuilding now ins loc addr cfg nick this)) (map id (all this))
        <-> exists b,
              In b (all this)
              /\ id b = generateId now (location b)
              /\ JS.toFixed6 (lat loc) = JS.toFixed6 (lat (location b))
              /\ JS.toFixed6 (lng loc) = JS.toFixed6 (lng (location b)))
  /\ (forall now1 now2 loc ins1 addr1 cfg1 nick1 ins2 addr2 cfg2 nick2,
        now1 <> now2 ->
        let first := addBuilding now1 ins1 loc addr1 cfg1 nick1 this in
        let second := addBuilding now2 ins2 loc addr2 cfg2 nick2 (after first) in
        result first <> result second
        /\ live (result first) (after second)
        /\ live (result second) (after second))
  /\ (forall now ins loc addr cfg nick b,
        In b (all this) ->
        id b = generateId now (location b) ->
        JS.toFixed6 (lat loc) = JS.toFixed6 (lat (location b)) ->
        JS.toFixed6 (lng loc) = JS.toFixed6 (lng (location b)) ->
        result (addBuilding now ins loc addr cfg nick this) = id b).
Proof.
  intros R. pose proof (Reachable_Inv _ R) as I.
  assert (gen : forall b, In b (all this) -> exists t, id b = generateId t (location b)).
  { intros b i. destruct I as [_ ok]. rewrite Forall_forall in ok.
    unfold all in i. revert i. run. unfold JSMap.values. intros i.
    apply in_map_iff in i. destruct i as ([k b'] & <- & i).
    exact (proj2 (ok _ i)). }
  split; [|split; [|split; [|split]]].
  - rewrite (Inv_ids _ I). apply I.
  - exact gen.
  - intros now ins loc addr cfg nick. rewrite addBuilding_eq. cbn [result fst]. split.
    + intros i. apply in_map_iff in i. destruct i as (b & e & i).
      exists b. split; [exact i|]. destruct (gen b i) as [t et].
      rewrite et in e. destruct (generateId_fields _ _ _ _ e) as (Elat & Elng & ->).
      auto.
    + intros (b & i & e & Elat & Elng). apply in_map_iff. exists b.
      split; [|exact i]. rewrite e. symmetry. now apply generateId_same.
  - intros now1 now2 loc ins1 addr1 cfg1 nick1 ins2 addr2 cfg2 nick2 ne first second.
    subst first second. rewrite !addBuilding_eq. cbn [result after fst snd].
    assert (d : generateId now1 loc <> generateId now2 loc).
    { intros e. now apply generateId_time in e. }
    split; [exact d|]. unfold live. rewrite !getBuilding_updated.
    cbn [updated this_buildings]. split.
    + rewrite JSMapFacts.get_set_other by exact d.
      now rewrite JSMapFacts.get_set_same.
    + now rewrite JSMapFacts.get_set_same.
  - intros now ins loc addr cfg nick b _ e elat elng.
    rewrite addBuilding_eq. cbn [result fst]. rewrite e.
    now apply generateId_same.
Qed.

Lemma values_replace_absent k v m :
  Forall entryOk m -> ~ In k (JSMap.keys m) ->
  map (fun b => if String.eqb (id b) k then v else b) (JSMap.values m)
  = JSMap.values m.
Proof.
  induction 1 as [|[k' v'] m [e _] _ IH]; simpl; intros notin; [reflexivity|].
  cbn in e. rewrite e. destruct (String.eqb_spec k' k) as [->|ne].
  - exfalso. apply notin. now left.
  - f_equal. apply IH. intros i. apply notin. now right.
Qed.

Lemma values_replace k v m :
  Forall entryOk m -> NoDup (JSMap.keys m) ->
  JSMap.values (JSMap.replace k v m)
  = map (fun b => if String.eqb (id b) k then v else b) (JSMap.values m).
Proof.
  induction 1 as [|[k' v'] m [e _] ok IH]; simpl; intros nd; [reflexivity|].
  inversion nd as [|? ? notin nd']; subst. cbn in e.
  destruct (String.eqb_spec k k') as [->|ne]; simpl; rewrite e.
  - rewrite String.eqb_refl. f_equal. symmetry. now apply values_replace_absent.
  - destruct (String.eqb_spec k' k) as [->|_]; [congruence|]. f_equal. now apply IH.
Qed.

(** C9. When an entry is live under the id a call of [addBuilding]
    generates (the entry of an earlier add at the same time value, at
    coordinates that agree to six decimals), the call returns that same id
    and puts its new entry in the place of the old one: the number of
    entries does not grow, [getBuilding] of the id gives the new entry,
    every other id gives what it gave, in a reachable state the sequence of
    entries is the former one with the new entry where the old one stood, no
    [setMap(null)] is sent for the old entry's boundary and panels, and the
    call ends like any other add, with its notification. *)
Theorem add_on_live_id_replaces (this this' : MultiBuildingManager) (now : Z)
    (loc1 loc2 : LatLng) (ins1 ins2 : BuildingInsightsResponse)
    (addr1 addr2 : string) (cfg1 cfg2 : option float) (nick1 nick2 : option string)
    (old : SelectedBuilding) :
  JS.toFixed6 (lat loc1) = JS.toFixed6 (lat loc2) ->
  JS.toFixed6 (lng loc1) = JS.toFixed6 (lng loc2) ->
  let first := addBuilding now ins1 loc1 addr1 cfg1 nick1 this in
  result (getBuilding (result first) this') = Some old ->
  let second := addBuilding now ins2 loc2 addr2 cfg2 nick2 this' in
  let new :=
    {| id := result first; buildingInsights := ins2;
       configId := orDefault 0%float cfg2; location := loc2; address := addr2;
       nickname := Some (nicknameOr nick2 addr2); boundary := None; panels := [];
       isActive := true |} in
  result second = result first
  /\ live (result first) (after first)
  /\ List.length (all (after second)) = List.length (all this')
  /\ (forall k, result (getBuilding k (after second))
                = if String.eqb k (result first) then Some new
                  else result (getBuilding k this'))
  /\ (Reachable this' ->
      all (after second)
      = map (fun b => if String.eqb (id b) (result first) then new else b) (all this'))
  /\ detached (trace second) = []
  /\ trace second = notification (after second).
Proof.
  intros elat elng first H second new. subst first second new.
  rewrite !addBuilding_eq in *. cbn [result after trace fst snd] in *.
  rewrite <- (generateId_same now loc1 loc2 elat elng).
  set (k1 := generateId now loc1) in *.
  assert (G : JSMap.get k1 (this_buildings this') = Some old) by exact H.
  assert (L : JSMap.has k1 (this_buildings this') = true).
  { apply JSMapFacts.has_get. congruence. }
  split; [reflexivity|]. split.
  { unfold live. rewrite getBuilding_updated, JSMapFacts.get_set_same. discriminate. }
  split.
  { rewrite all_updated. unfold all, JSMap.set. run. rewrite L.
    unfold JSMap.values. now rewrite !length_map, JSMapFacts.length_replace. }
  split.
  { intros k. rewrite getBuilding_updated.
    destruct (String.eqb_spec k k1) as [->|ne].
    - now rewrite JSMapFacts.get_set_same.
    - now rewrite JSMapFacts.get_set_other. }
  split.
  { intros R. destruct (Reachable_Inv _ R) as [nd ok].
    rewrite all_updated. unfold JSMap.set. rewrite L.
    now apply values_replace. }
  split; [|reflexivity].
  unfold notification. cbn. now destruct (this_onUpdateCallback this').
Qed.

(** ** Change notification *)

Lemma callbacks_app t u : callbacks (t ++ u)%list = (callbacks t ++ callbacks u)%list.
Proof. apply filter_app. Qed.

Lemma detached_app t u : detached (t ++ u)%list = (detached t ++ detached u)%list.
Proof. apply filter_app. Qed.

Lemma callbacks_SetMapNull ps : callbacks (map SetMapNull ps) = [].
Proof. induction ps; simpl; auto. Qed.

Lemma detached_SetMapNull ps : detached (map SetMapNull ps) = map SetMapNull ps.
Proof.
  induction ps as [|p ps IH]; [reflexivity|].
  change (SetMapNull p :: detached (map SetMapNull ps) = SetMapNull p :: map SetMapNull ps).
  now rewrite IH.
Qed.

Lemma callbacks_detachEvents b : callbacks (detachEvents b) = [].
Proof.
  unfold detachEvents. rewrite callbacks_app, callbacks_SetMapNull.
  now destruct (boundary b).
Qed.

Lemma detached_detachEvents b : detached (detachEvents b) = detachEvents b.
Proof.
  unfold detachEvents. rewrite detached_app, detached_SetMapNull.
  now destruct (boundary b).
Qed.

Lemma callbacks_flat_detach bs : callbacks (flat_map detachEvents bs) = [].
Proof.
  induction bs as [|b bs IH]; simpl; [reflexivity|].
  now rewrite callbacks_app, callbacks_detachEvents, IH.
Qed.

Lemma detached_flat_detach bs :
  detached (flat_map detachEvents bs) = flat_map detachEvents bs.
Proof.
  induction bs as [|b bs IH]; simpl; [reflexivity|].
  now rewrite detached_app, detached_detachEvents, IH.
Qed.

Lemma notification_registered cb f this :
  this_onUpdateCallback this = Some cb ->
  notification (updated f this) = [OnUpdate cb (all (updated f this))].
Proof. intros H. unfold notification. cbn. now rewrite H. Qed.

Lemma notification_unregistered f this :
  notification (updated f (withCallback None this)) = [].
Proof. reflexivity. Qed.

Lemma detached_notification this : detached (notification this) = [].
Proof. unfold notification. now destruct (this_onUpdateCallback this). Qed.

Lemma live_get id this :
  live id this -> exists b, JSMap.get id (this_buildings this) = Some b.
Proof.
  unfold live. run. destruct (JSMap.get id (this_buildings this)) as [b|]; [eauto | congruence].
Qed.

Create Rewrite HintDb effects.
#[local] Hint Rewrite callbacks_app detached_app callbacks_detachEvents
  detached_detachEvents callbacks_flat_detach detached_flat_detach
  detached_notification notification_unregistered app_nil_r : effects.

Ltac by_equation E :=
  rewrite E; cbn [result after trace fst snd]; autorewrite with effects.

Lemma add_notifies cb this now ins loc addr cfg nick :
  this_onUpdateCallback this = Some cb ->
  notifiesOnce cb (addBuilding now ins loc addr cfg nick this).
Proof.
  intros H. unfold notifiesOnce. by_equation addBuilding_eq.
  now rewrite (notification_registered cb _ _ H).
Qed.

Lemma remove_notifies cb this id :
  this_onUpdateCallback this = Some cb -> live id this ->
  notifiesOnce cb (removeBuilding id this).
Proof.
  intros H L. destruct (live_get _ _ L) as [b G]. unfold notifiesOnce.
  by_equation (removeBuilding_live id b this G).
  now rewrite (notification_registered cb _ _ H).
Qed.

Lemma updateConfig_notifies cb this id c :
  this_onUpdateCallback this = Some cb -> live id this ->
  notifiesOnce cb (updateBuildingConfig id c this).
Proof.
  intros H L. destruct (live_get _ _ L) as [b G]. unfold notifiesOnce.
  by_equation (updateBuildingConfig_live id c b this G).
  now rewrite (notification_registered cb _ _ H).
Qed.

Lemma updateNickname_notifies cb this id n :
  this_onUpdateCallback this = Some cb -> live id this ->
  notifiesOnce cb (updateBuildingNickname id n this).
Proof.
  intros H L. destruct (live_get _ _ L) as [b G]. unfold notifiesOnce.
  by_equation (updateBuildingNickname_live id n b this G).
  now rewrite (notification_registered cb _ _ H).
Qed.

Lemma toggle_notifies cb this id :
  this_onUpdateCallback this = Some cb -> live id this ->
  notifiesOnce cb (toggleBuildingActive id this).
Proof.
  intros H L. destruct (live_get _ _ L) as [b G]. unfold notifiesOnce.
  by_equation (toggleBuildingActive_live id b this G).
  now rewrite (notification_registered cb _ _ H).
Qed.

Lemma clear_notifies cb this :
  this_onUpdateCallback this = Some cb -> notifiesOnce cb (clear this).
Proof.
  intros H. unfold notifiesOnce. by_equation clear_eq.
  now rewrite (notification_registered cb _ _ H).
Qed.

Lemma setPanels_silent this id ps : neverNotifies (setBuildingPanels id ps this).
Proof.
  unfold neverNotifies. destruct (JSMap.get id (this_buildings this)) as [b|] eqn:G.
  - now rewrite (setBuildingPanels_live id ps b this G).
  - now rewrite (setBuildingPanels_absent id ps this G).
Qed.

Lemma setBoundary_silent this id p : neverNotifies (setBuildingBoundary id p this).
Proof.
  unfold neverNotifies. destruct (JSMap.get id (this_buildings this)) as [b|] eqn:G.
  - now rewrite (setBuildingBoundary_live id p b this G).
  - now rewrite (setBuildingBoundary_absent id p this G).
Qed.

Lemma not_live_refuses this id :
  ~ live id this ->
  refuses (removeBuilding id this)
  /\ (forall configId, refuses (updateBuildingConfig id configId this))
  /\ (forall nickname, refuses (updateBuildingNickname id nickname this))
  /\ refuses (toggleBuildingActive id this).
Proof.
  intros L.
  assert (G : JSMap.get id (this_buildings this) = None).
  { destruct (JSMap.get id (this_buildings this)) eqn:G; [|reflexivity].
    exfalso. apply L. unfold live. run. rewrite G. discriminate. }
  repeat split; intros.
  all: first [ rewrite (removeBuilding_absent _ _ G)
             | rewrite (updateBuildingConfig_absent _ _ _ G)
             | rewrite (updateBuildingNickname_absent _ _ _ G)
             | rewrite (toggleBuildingActive_absent _ _ G) ];
    reflexivity.
Qed.

Section Unregistered.
Variable this : MultiBuildingManager.
Let this0 := withCallback None this.

Lemma add_unregistered now ins loc addr cfg nick :
  sameButSilent (addBuilding now ins loc addr cfg nick this0)
    (addBuilding now ins loc addr cfg nick this).
Proof.
  unfold sameButSilent. rewrite !addBuilding_eq. cbn [result after trace fst snd].
  autorewrite with effects. repeat split.
Qed.

Lemma remove_unregistered id :
  sameButSilent (removeBuilding id this0) (removeBuilding id this).
Proof.
  unfold sameButSilent.
  destruct (JSMap.get id (this_buildings this)) as [b|] eqn:G.
  - rewrite (removeBuilding_live id b this G), (removeBuilding_live id b this0 G).
    cbn [result after trace fst snd]. autorewrite with effects. repeat split.
  - rewrite (removeBuilding_absent id this G), (removeBuilding_absent id this0 G).
    repeat split.
Qed.

Lemma updateConfig_unregistered id c :
  sameButSilent (updateBuildingConfig id c this0) (updateBuildingConfig id c this).
Proof.
  unfold sameButSilent.
  destruct (JSMap.get id (this_buildings this)) as [b|] eqn:G.
  - rewrite (updateBuildingConfig_live id c b this G),
      (updateBuildingConfig_live id c b this0 G).
    cbn [result after trace fst snd]. autorewrite with effects. repeat split.
  - rewrite (updateBuildingConfig_absent id c this G),
      (updateBuildingConfig_absent id c this0 G).
    repeat split.
Qed.

Lemma updateNickname_unregistered id n :
  sameButSilent (updateBuildingNickname id n this0) (updateBuildingNickname id n this).
Proof.
  unfold sameButSilent.
  destruct (JSMap.get id (this_buildings this)) as [b|] eqn:G.
  - rewrite (updateBuildingNickname_live id n b this G),
      (updateBuildingNickname_live id n b this0 G).
    cbn [result after trace fst snd]. autorewrite with effects. repeat split.
  - rewrite (updateBuildingNickname_absent id n this G),
      (updateBuildingNickname_absent id n this0 G).
    repeat split.
Qed.

Lemma toggle_unregistered id :
  sameButSilent (toggleBuildingActive id this0) (toggleBuildingActive id this).
Proof.
  unfold sameButSilent.
  destruct (JSMap.get id (this_buildings this)) as [b|] eqn:G.
  - rewrite (toggleBuildingActive_live id b this G),
      (toggleBuildingActive_live id b this0 G).
    cbn [result after trace fst snd]. autorewrite with effects. repeat split.
  - rewrite (toggleBuildingActive_absent id this G),
      (toggleBuildingActive_absent id this0 G).
    repeat split.
Qed.

Lemma clear_unregistered : sameButSilent (clear this0) (clear this).
Proof.
  unfold sameButSilent. rewrite !clear_eq. cbn [result after trace fst snd].
  autorewrite with effects. repeat split.
Qed.
End Unregistered.

(** C2, as the code has it. With a callback registered, [addBuilding] and
    [clear], and [removeBuilding], [updateBuildingConfig],
    [updateBuildingNickname] and [toggleBuildingActive] on a live id, call it
    exactly once, with all the entries held after the call, in insertion
    order; on an id that is not live these four answer [false] and do not
    call it. [getBuilding], [getAllBuildings], [getActiveBuildings],
    [hasBuilding], [getAggregatedData], [setBuildingPanels] and
    [setBuildingBoundary] never call it. Without a callback each of the six
    changing calls has the same result and leaves the same entries as with
    one, and nothing is called back. *)
Theorem change_notification (this : MultiBuildingManager) (cb : Callback) :
  this_onUpdateCallback this = Some cb ->
  (forall now ins loc addr cfg nick,
      notifiesOnce cb (addBuilding now ins loc addr cfg nick this))
  /\ (forall id, live id this -> notifiesOnce cb (removeBuilding id this))
  /\ (forall id configId, live id this ->
        notifiesOnce cb (updateBuildingConfig id configId this))
  /\ (forall id nickname, live id this ->
        notifiesOnce cb (updateBuildingNickname id nickname this))
  /\ (forall id, live id this -> notifiesOnce cb (toggleBuildingActive id this))
  /\ notifiesOnce cb (clear this)
  /\ (forall id, ~ live id this ->
        refuses (removeBuilding id this)
        /\ (forall configId, refuses (updateBuildingConfig id configId this))
        /\ (forall nickname, refuses (updateBuildingNickname id nickname this))
        /\ refuses (toggleBuildingActive id this))
  /\ (forall id, neverNotifies (getBuilding id this))
  /\ neverNotifies (getAllBuildings this)
  /\ neverNotifies (getActiveBuildings this)
  /\ (forall point threshold, neverNotifies (hasBuilding point threshold this))
  /\ (forall r d, neverNotifies (getAggregatedData r d this))
  /\ (forall id panels, neverNotifies (setBuildingPanels id panels this))
  /\ (forall id boundary, neverNotifies (setBuildingBoundary id boundary this))
  /\ (let this0 := withCallback None this in
      (forall now ins loc addr cfg nick,
          sameButSilent (addBuilding now ins loc addr cfg nick this0)
            (addBuilding now ins loc addr cfg nick this))
      /\ (forall id, sameButSilent (removeBuilding id this0) (removeBuilding id this))
      /\ (forall id configId,
            sameButSilent (updateBuildingConfig id configId this0)
              (updateBuildingConfig id configId this))
      /\ (forall id nickname,
            sameButSilent (updateBuildingNickname id nickname this0)
              (updateBuildingNickname id nickname this))
      /\ (forall id,
            sameButSilent (toggleBuildingActive id this0) (toggleBuildingActive id this))
      /\ sameButSilent (clear this0) (clear this)).
Proof.
  intros H.
  split; [intros; now apply add_notifies|].
  split; [intros; now apply remove_notifies|].
  split; [intros; now apply updateConfig_notifies|].
  split; [intros; now apply updateNickname_notifies|].
  split; [intros; now apply toggle_notifies|].
  split; [now apply clear_notifies|].
  split; [intros id L; now apply not_live_refuses|].
  do 5 (split; [reflexivity|]).
  split; [intros; apply setPanels_silent|].
  split; [intros; apply setBoundary_silent|].
  intros this0. subst this0.
  split; [intros; apply add_unregistered|].
  split; [intros; apply remove_unregistered|].
  split; [intros; apply updateConfig_unregistered|].
  split; [intros; apply updateNickname_unregistered|].
  split; [intros; apply toggle_unregistered|].
  apply clear_unregistered.
Qed.

(** ** Default nickname *)

Lemma spanDigits_spec (s : string) :
  s = fst (JS.spanDigits s) ++ snd (JS.spanDigits s)
  /\ allDigits (fst (JS.spanDigits s))
  /\ headIs JS.isDigit (snd (JS.spanDigits s)) = false.
Proof.
  unfold allDigits. induction s as [|c s (E & A & Hd)]; simpl; [auto|].
  destruct (JS.isDigit c) eqn:D.
  - destruct (JS.spanDigits s) as [ds rest]. simpl in *.
    rewrite D, A. repeat split; auto. now rewrite <- E.
  - simpl. now rewrite D.
Qed.

Lemma optLetter_spec (s : string) :
  exists rest,
    s = JS.optLetter s ++ rest
    /\ (JS.optLetter s = EmptyString /\ headIs JS.isLetter s = false
        \/ exists c, JS.optLetter s = String c EmptyString /\ JS.isLetter c = true).
Proof.
  destruct s as [|c s]; simpl.
  - exists EmptyString. auto.
  - destruct (JS.isLetter c) eqn:L.
    + exists s. split; [reflexivity|]. right. now exists c.
    + exists (String c s). auto.
Qed.

Lemma matchNumberToken_spec (s : string) :
  match JS.matchNumberToken s with
  | Some token => tokenOf s token
  | None => noDigit s
  end.
Proof.
  unfold noDigit. induction s as [|c s IH]; [reflexivity|].
  cbn [JS.matchNumberToken]. destruct (JS.isDigit c) eqn:D.
  - destruct (spanDigits_spec (String c s)) as (E & A & Hd).
    destruct (JS.spanDigits (String c s)) as [ds rest] eqn:S. cbn [fst snd] in *.
    destruct (optLetter_spec rest) as (rest' & Er & Cases).
    exists EmptyString, ds, (JS.optLetter rest), rest'. rewrite <- Er.
    split; [exact E|]. split; [reflexivity|]. split.
    { intros ->. simpl in S. rewrite D in S. destruct (JS.spanDigits s); discriminate. }
    split; [exact A|]. split; [exact Hd|]. split; [|reflexivity].
    destruct Cases as [[e h]|(l & e & L)].
    + left. split; [exact e|]. rewrite e in Er. simpl in Er. now rewrite <- Er.
    + right. now exists l.
  - destruct (JS.matchNumberToken s) as [token|].
    + destruct IH as (before & digits & letter & rest & -> & nb & IH).
      exists (String c before), digits, letter, rest.
      split; [reflexivity|]. split; [|exact IH].
      unfold noDigit in *. simpl. now rewrite D, nb.
    + simpl. now rewrite D, IH.
Qed.

Lemma spanDigits_app (ds rest : string) :
  allDigits ds -> headIs JS.isDigit rest = false ->
  JS.spanDigits (ds ++ rest) = (ds, rest).
Proof.
  unfold allDigits. intros A Hd. induction ds as [|c ds IH]; simpl in *.
  - destruct rest as [|r rest]; [reflexivity|]. simpl in *. now rewrite Hd.
  - apply andb_true_iff in A. destruct A as [D A]. rewrite D, (IH A). reflexivity.
Qed.

Lemma optLetter_app (letter rest : string) :
  (letter = EmptyString /\ headIs JS.isLetter rest = false
   \/ exists c, letter = String c EmptyString /\ JS.isLetter c = true) ->
  JS.optLetter (letter ++ rest) = letter.
Proof.
  intros [[-> H]|(c & -> & L)]; simpl.
  - destruct rest as [|r rest]; [reflexivity|]. simpl in *. now rewrite H.
  - now rewrite L.
Qed.

Lemma matchNumberToken_noDigit (s : string) :
  noDigit s -> JS.matchNumberToken s = None.
Proof.
  unfold noDigit. induction s as [|c s IH]; simpl; [reflexivity|].
  intros H. apply andb_true_iff in H. destruct H as [D H].
  apply negb_true_iff in D. rewrite D. auto.
Qed.

(** The token is the one the pattern captures, and no other. *)
Lemma matchNumberToken_complete (s token : string) :
  tokenOf s token -> JS.matchNumberToken s = Some token.
Proof.
  intros (before & digits & letter & rest & -> & nb & ne & A & Hd & L & ->).
  unfold noDigit in nb. induction before as [|c before IH].
  - change (EmptyString ++ digits ++ letter ++ rest) with (digits ++ letter ++ rest).
    destruct digits as [|d digits]; [congruence|].
    pose proof (spanDigits_app _ _ A Hd) as S.
    unfold allDigits in A. simpl in A. apply andb_true_iff in A. destruct A as [D _].
    change (String d digits ++ letter ++ rest)
      with (String d (digits ++ letter ++ rest)) in *.
    cbn [JS.matchNumberToken]. rewrite D, S. now rewrite (optLetter_app _ _ L).
  - simpl in nb. apply andb_true_iff in nb. destruct nb as [D nb].
    apply negb_true_iff in D.
    change (String c before ++ digits ++ letter ++ rest)
      with (String c (before ++ digits ++ letter ++ rest)).
    cbn [JS.matchNumberToken]. rewrite D. now apply IH.
Qed.

Lemma beforeFirstComma_spec (s : string) :
  allChars (fun c => negb (Ascii.eqb c ",")) (JS.beforeFirstComma s) = true
  /\ (s = JS.beforeFirstComma s
      \/ exists rest, s = JS.beforeFirstComma s ++ "," ++ rest).
Proof.
  induction s as [|c s [A IH]]; simpl; [auto|].
  destruct (Ascii.eqb_spec c ",") as [->|ne]; simpl.
  - split; [reflexivity|]. right. now exists s.
  - rewrite A. apply Ascii.eqb_neq in ne. rewrite ne. split; [reflexivity|].
    destruct IH as [<-|[rest E]]; [now left|]. right. exists rest.
    simpl. f_equal. exact E.
Qed.

(** C4, as the code has it. When [addBuilding] is called without a
    nickname, the entry it stores carries the nickname derived from the
    address: of the text before the first comma, trimmed, take the first run
    of digits, whole, and the ASCII letter directly after it if there is one
    (the run may stand anywhere in the text, not only at its start); the
    nickname is ["Gebäude "] followed by that token, and ["Gebäude"] alone
    when the text has no digit. One of the two is always the case. *)
Theorem default_nickname (this : MultiBuildingManager) (now : Z)
    (ins : BuildingInsightsResponse) (loc : LatLng) (addr : string)
    (cfg : option float) :
  let o := addBuilding now ins loc addr cfg None this in
  let first := JS.beforeFirstComma addr in
  let segment := JS.trim first in
  (exists b, result (getBuilding (result o) (after o)) = Some b
             /\ nickname b = Some (generateNickname addr))
  /\ allChars (fun c => negb (Ascii.eqb c ",")) first = true
  /\ (addr = first \/ exists rest, addr = first ++ "," ++ rest)
  /\ (forall token,
        tokenOf segment token -> generateNickname addr = "Gebäude " ++ token)
  /\ (noDigit segment -> generateNickname addr = "Gebäude")
  /\ (noDigit segment \/ exists token, tokenOf segment token).
Proof.
  intros o first segment. subst o. rewrite addBuilding_eq.
  cbn [result after fst snd]. rewrite getBuilding_updated.
  cbn [updated this_buildings]. rewrite JSMapFacts.get_set_same.
  split; [eexists; split; reflexivity|].
  destruct (beforeFirstComma_spec addr) as [A B].
  split; [exact A|]. split; [exact B|].
  unfold generateNickname. fold first. fold segment.
  split; [|split].
  - intros token T. now rewrite (matchNumberToken_complete _ _ T).
  - intros N. now rewrite (matchNumberToken_noDigit _ N).
  - pose proof (matchNumberToken_spec segment) as T.
    destruct (JS.matchNumberToken segment) as [token|]; [right; now exists token | now left].
Qed.

(** ** Concrete runs *)

Lemma oneBuilding_reachable : Reachable oneBuilding.
Proof. apply Reachable_call, Reachable_new. Qed.

Lemma twoBuildings_reachable : Reachable twoBuildings.
Proof. apply Reachable_call, oneBuilding_reachable. Qed.

Example two_buildings_aggregate :
  option_map (fun agg => (totalPanelsCount agg, totalYearlyEnergyDcKwh agg,
                          totalMaxArrayPanelsCount agg, List.length (buildings agg)))
    (match result (getAggregatedData (Some 1.0%float) (Some 0.85%float) twoBuildings) with
     | Normal agg => Some agg
     | ThrowTypeError => None
     end)
  = Some (125%float, 42500%float, 200%float, 2%nat).
Proof. vm_compute. reflexivity. Qed.

Example ratio_two_doubles :
  option_map (fun agg => (totalPanelsCount agg, totalYearlyEnergyDcKwh agg))
    (match result (getAggregatedData (Some 2.0%float) (Some 0.85%float) oneBuilding) with
     | Normal agg => Some agg
     | ThrowTypeError => None
     end)
  = Some (100%float, 34000%float).
Proof. vm_compute. reflexivity. Qed.

Example far_location_not_matched :
  result (hasBuilding {| lat := 40.7128; lng := -74.006 |} (Some 0.0001%float) oneBuilding)
  = None
  /\ result (hasBuilding mockLatLng1 (Some 0.0001%float) oneBuilding) = Some oneBuildingId.
Proof. vm_compute. split; reflexivity. Qed.

Example out_of_range_config_throws :
  result (getAggregatedData None None
            (after (updateBuildingConfig oneBuildingId 3 oneBuilding)))
  = ThrowTypeError.
Proof. vm_compute. reflexivity. Qed.

(** *** C1 at a concrete input: three entries, one of them inactive,
    configurations 0 and 1, a ratio of one and a half *)
Lemma threeBuildings_entries :
  List.length (all threeBuildings) = 3%nat
  /\ filter isActive (all threeBuildings) = [firstEntry; secondEntry].
Proof. vm_compute. split; reflexivity. Qed.

Lemma getAggregatedData_sums_witness :
  let chosen := [ {| panelsCount := 50; yearlyEnergyDcKwh := 20000 |};
                  {| panelsCount := 75; yearlyEnergyDcKwh := 30000 |} ] in
  Forall2 chosenConfig (filter isActive (all threeBuildings)) chosen
  /\ List.length (all threeBuildings) = 3%nat
  /\ exists agg,
       result (getAggregatedData (Some 1.5%float) (Some 0.85%float) threeBuildings)
       = Normal agg
       /\ buildings agg = [firstEntry; secondEntry]
       /\ totalPanelsCount agg = 187%float
       /\ totalYearlyEnergyDcKwh agg = 63750%float
       /\ totalMaxArrayPanelsCount agg = 200%float.
Proof.
  intros chosen. destruct threeBuildings_entries as [L A].
  assert (H : Forall2 chosenConfig (filter isActive (all threeBuildings)) chosen).
  { rewrite A. constructor; [|constructor; [|constructor]].
    - exists 0%nat. split; [vm_compute; reflexivity | reflexivity].
    - exists 1%nat. split; [vm_compute; reflexivity | reflexivity]. }
  split; [exact H|]. split; [exact L|].
  destruct (getAggregatedData_sums threeBuildings 1.5%float 0.85%float chosen H)
    as (agg & R & P & Y & M & _ & _ & _ & _ & B & _).
  exists agg. split; [exact R|]. rewrite B, P, Y, M, A.
  repeat split; vm_compute; reflexivity.
Defined.

(** *** C2: where the sentence of the specification fails, and a concrete run *)
Lemma update_on_absent_id_does_not_notify :
  let this := constructor (Some observer) in
  this_onUpdateCallback this = Some observer
  /\ updateBuildingConfig oneBuildingId 1 this = (false, this, [])
  /\ updateBuildingNickname oneBuildingId "Office" this = (false, this, [])
  /\ toggleBuildingActive oneBuildingId this = (false, this, [])
  /\ callbacks (trace (updateBuildingConfig oneBuildingId 1 this)) = [].
Proof. vm_compute. repeat split. Qed.

Lemma change_notification_witness :
  this_onUpdateCallback oneBuilding = Some observer
  /\ notifiesOnce observer (toggleBuildingActive oneBuildingId oneBuilding)
  /\ notifiesOnce observer (clear oneBuilding).
Proof.
  assert (H : this_onUpdateCallback oneBuilding = Some observer) by reflexivity.
  split; [exact H|].
  destruct (change_notification oneBuilding observer H)
    as (_ & _ & _ & _ & T & C & _).
  split; [|exact C]. apply T. vm_compute. discriminate.
Defined.


(** *** C4: where the sentence of the specification fails *)
Lemma nickname_label_is_not_Building :
  let o := addBuilding 1700000000000 mockBuildingInsights mockLatLng1
             "14a Main Street, Springfield" None None (constructor None) in
  option_map nickname (result (getBuilding (result o) (after o)))
  = Some (Some "Gebäude 14a")
  /\ String.eqb "Gebäude 14a" "Building 14a" = false
  /\ generateNickname "Main Street, Springfield" = "Gebäude"
  /\ generateNickname "Main Street 14a, Springfield" = "Gebäude 14a".
Proof. vm_compute. repeat split. Qed.

(** *** C5 at a concrete input *)
Lemma not_found_returns_false_witness :
  Reachable oneBuilding
  /\ ~ In "building_0.000000_0.000000_0" (map id (all oneBuilding))
  /\ removeBuilding "building_0.000000_0.000000_0" oneBuilding
     = (false, oneBuilding, [])
  /\ toggleBuildingActive "building_0.000000_0.000000_0" oneBuilding
     = (false, oneBuilding, []).
Proof.
  assert (H : ~ In "building_0.000000_0.000000_0" (map id (all oneBuilding))).
  { vm_compute. intros [e|[]]. discriminate e. }
  split; [exact oneBuilding_reachable|]. split; [exact H|].
  destruct (not_found_returns_false oneBuilding _ oneBuilding_reachable H)
    as (Rm & _ & _ & T & _).
  split; [exact Rm | exact T].
Defined.

(** *** C6 at a concrete input *)
Lemma aggregate_without_active_entries_witness :
  let this := after (toggleBuildingActive oneBuildingId oneBuilding) in
  active this = []
  /\ result (getAggregatedData None None this)
     = Normal
         {| totalPanelsCount := 0; totalYearlyEnergyDcKwh := 0; totalAreaMeters2 := 0;
            totalMaxArrayPanelsCount := 0; totalMaxArrayAreaMeters2 := 0;
            totalRoofArea := 0; buildings := []; averagePanelCapacityWatts := 0;
            totalCarbonOffsetKgPerYear := 0 |}.
Proof.
  intros this.
  assert (H : active this = []) by (vm_compute; reflexivity).
  split; [exact H|].
  exact (aggregate_without_active_entries this None None H).
Defined.

(** *** C7 at a concrete input *)
Lemma toggle_twice_restores_witness :
  exists b,
    result (getBuilding oneBuildingId oneBuilding) = Some b
    /\ after (toggleBuildingActive oneBuildingId
                (after (toggleBuildingActive oneBuildingId oneBuilding)))
       = oneBuilding.
Proof.
  destruct (result (getBuilding oneBuildingId oneBuilding)) as [b|] eqn:E;
    [|vm_compute in E; discriminate E].
  exists b. split; [reflexivity|].
  exact (proj2 (proj2 (proj2 (toggle_twice_restores oneBuilding oneBuildingId b E)))).
Defined.

(** *** C8: where the sentence of the specification fails, and a concrete run *)
Lemma same_place_same_time_same_id :
  let first := addBuilding 1700000000000 mockBuildingInsights mockLatLng1
                 "Address 1" None None (constructor None) in
  let second := addBuilding 1700000000000 mockBuildingInsights mockLatLng1
                  "Address 2" None None (after first) in
  result second = result first
  /\ map id (all (after first)) = [result second]
  /\ List.length (all (after second)) = 1%nat.
Proof. vm_compute. repeat split. Qed.

Lemma ids_unique_and_fresh_witness :
  Reachable twoBuildings
  /\ NoDup (map id (all twoBuildings))
  /\ ~ In (result (addBuilding 1700000000002 mockBuildingInsights mockLatLng1
                     "Address 3" None None twoBuildings))
          (map id (all twoBuildings))
  /\ ~ In (result (addBuilding 1700000000001 mockBuildingInsights mockLatLng1
                     "Address 3" None None twoBuildings))
          (map id (all twoBuildings)).
Proof.
  split; [exact twoBuildings_reachable|].
  destruct (ids_unique_and_fresh twoBuildings twoBuildings_reachable)
    as (U & _ & F & _ & _).
  split; [exact U|].
  assert (A : all twoBuildings = [firstEntry; secondEntry]) by (vm_compute; reflexivity).
  split; intros i; apply F in i; destruct i as (b & i & e & Elat & Elng);
    rewrite A in i; destruct i as [<-|[<-|[]]];
    first [ vm_compute in e; discriminate e | vm_compute in Elat; discriminate Elat ].
Defined.

(** *** C9 at a concrete input *)
Lemma add_on_live_id_replaces_witness :
  let nearby := {| lat := 37.44190001; lng := -122.14300001 |} in
  let withPanels :=
    after (setBuildingPanels oneBuildingId [PolygonHandle 1; PolygonHandle 2] oneBuilding) in
  let second := addBuilding 1700000000000 mockBuildingInsights nearby
                  "Somewhere else" None None withPanels in
  JS.toFixed6 (lat mockLatLng1) = JS.toFixed6 (lat nearby)
  /\ JS.toFixed6 (lng mockLatLng1) = JS.toFixed6 (lng nearby)
  /\ option_map panels (result (getBuilding oneBuildingId withPanels))
     = Some [PolygonHandle 1; PolygonHandle 2]
  /\ result second = oneBuildingId
  /\ List.length (all (after second)) = 1%nat
  /\ detached (trace second) = [].
Proof.
  intros nearby withPanels second.
  assert (Hlat : JS.toFixed6 (lat mockLatLng1) = JS.toFixed6 (lat nearby))
    by (vm_compute; reflexivity).
  assert (Hlng : JS.toFixed6 (lng mockLatLng1) = JS.toFixed6 (lng nearby))
    by (vm_compute; reflexivity).
  destruct (result (getBuilding oneBuildingId withPanels)) as [old|] eqn:E;
    [|vm_compute in E; discriminate E].
  assert (E' : result (getBuilding
                         (result (addBuilding 1700000000000 mockBuildingInsights
                                    mockLatLng1 "Test Address 123" None None
                                    (constructor (Some observer))))
                         withPanels) = Some old) by exact E.
  destruct (add_on_live_id_replaces (constructor (Some observer)) withPanels
              1700000000000 mockLatLng1 nearby mockBuildingInsights
              mockBuildingInsights "Test Address 123" "Somewhere else" None None
              None None old Hlat Hlng E') as (R & _ & L & _ & _ & D & _).
  split; [exact Hlat|]. split; [exact Hlng|].
  split; [vm_compute in E; injection E as <-; reflexivity|].
  split; [exact R|]. split; [exact L|]. exact D.
Defined.

(** * Further properties of the manager *)

(** ** More facts about the map *)

Lemma values_set_fresh k v m :
  JSMap.get k m = None -> JSMap.values (JSMap.set k v m) = (JSMap.values m ++ [v])%list.
Proof.
  intros H. apply JSMapFacts.has_false_get in H. unfold JSMap.set. rewrite H.
  unfold JSMap.values. now rewrite map_app.
Qed.

Lemma values_delete k m :
  Forall entryOk m -> NoDup (JSMap.keys m) ->
  JSMap.values (JSMap.delete k m) = others k (JSMap.values m).
Proof.
  unfold others.
  induction 1 as [|[k' v'] m [e _] ok IH]; simpl; intros nd; [reflexivity|].
  inversion nd as [|? ? notin nd']; subst. cbn in e. rewrite e.
  destruct (String.eqb_spec k k') as [->|ne].
  - rewrite String.eqb_refl. simpl.
    clear IH nd. induction ok as [|[k0 v0] m [e0 _] ok IH]; simpl; [reflexivity|].
    cbn in e0. rewrite e0. destruct (String.eqb_spec k0 k') as [->|n0].
    + exfalso. apply notin. now left.
    + simpl. f_equal. apply IH.
      * intros i. apply notin. now right.
      * now inversion nd'.
  - destruct (String.eqb_spec k' k) as [->|_]; [congruence|]. simpl. f_equal. now apply IH.
Qed.

Lemma get_delete_same k m : NoDup (JSMap.keys m) -> JSMap.get k (JSMap.delete k m) = None.
Proof.
  induction m as [|[k' v'] m IH]; simpl; intros nd; [reflexivity|].
  inversion nd as [|? ? notin nd']; subst.
  destruct (String.eqb_spec k k') as [->|ne]; simpl.
  - apply JSMapFacts.has_false_get. destruct (JSMap.has k' m) eqn:H; [|reflexivity].
    apply JSMapFacts.has_In in H. contradiction.
  - destruct (String.eqb_spec k k'); [congruence | auto].
Qed.

Lemma get_delete_other k k' m : k' <> k -> JSMap.get k' (JSMap.delete k m) = JSMap.get k' m.
Proof.
  intros ne. induction m as [|[k0 v0] m IH]; simpl; [reflexivity|].
  destruct (String.eqb_spec k k0) as [->|nk]; simpl.
  - destruct (String.eqb_spec k' k0); [congruence | reflexivity].
  - destruct (String.eqb k' k0); [reflexivity | exact IH].
Qed.

Lemma length_others_live k b m :
  Forall entryOk m -> NoDup (JSMap.keys m) -> JSMap.get k m = Some b ->
  List.length (JSMap.values m) = S (List.length (others k (JSMap.values m))).
Proof.
  intros ok nd G. rewrite <- (values_delete k m ok nd). unfold JSMap.values.
  rewrite !length_map. clear ok nd.
  induction m as [|[k' v'] m IH]; simpl in *; [discriminate|].
  destruct (String.eqb k k'); simpl; [reflexivity | now rewrite IH].
Qed.

(** ** Adding *)

(** X1. An add whose generated id is not live appends: the entry made of the
    arguments is what [getBuilding] of the returned id gives, it stands
    last in [getAllBuildings], every other id gives what it gave, and
    nothing is detached. *)
Theorem add_fresh_appends (this : MultiBuildingManager) (now : Z)
    (ins : BuildingInsightsResponse) (loc : LatLng) (addr : string)
    (cfg : option float) (nick : option string) :
  ~ live (generateId now loc) this ->
  let o := addBuilding now ins loc addr cfg nick this in
  let new := newBuilding now ins loc addr cfg nick in
  result o = id new
  /\ isActive new = true /\ panels new = [] /\ boundary new = None
  /\ result (getBuilding (result o) (after o)) = Some new
  /\ all (after o) = (all this ++ [new])%list
  /\ (forall k, k <> result o ->
        result (getBuilding k (after o)) = result (getBuilding k this))
  /\ detached (trace o) = [].
Proof.
  intros fresh o new. subst o new. rewrite addBuilding_eq.
  cbn [result after trace fst snd].
  assert (G : JSMap.get (generateId now loc) (this_buildings this) = None).
  { destruct (JSMap.get _ _) eqn:G; [|reflexivity]. exfalso. apply fresh.
    unfold live. run. rewrite G. discriminate. }
  repeat split.
  - rewrite getBuilding_updated. apply JSMapFacts.get_set_same.
  - rewrite all_updated. now apply values_set_fresh.
  - intros k ne. rewrite getBuilding_updated. now apply JSMapFacts.get_set_other.
  - apply detached_notification.
Qed.

Lemma generateNickname_nonempty (addr : string) : generateNickname addr <> EmptyString.
Proof.
  unfold generateNickname. destruct (JS.matchNumberToken _); discriminate.
Qed.

(** X2. The nickname an add stores: a non-empty nickname argument is stored
    as it is; the empty string is treated like an omitted nickname and the
    derived one is stored; in both cases the stored nickname is a non-empty
    string. *)
Theorem add_stores_nickname (this : MultiBuildingManager) (now : Z)
    (ins : BuildingInsightsResponse) (loc : LatLng) (addr : string)
    (cfg : option float) (nick : option string) :
  let o := addBuilding now ins loc addr cfg nick this in
  exists b,
    result (getBuilding (result o) (after o)) = Some b
    /\ (forall s, nick = Some s -> s <> EmptyString -> nickname b = Some s)
    /\ (nick = Some EmptyString -> nickname b = Some (generateNickname addr))
    /\ (nick = None -> nickname b = Some (generateNickname addr))
    /\ (exists s, nickname b = Some s /\ s <> EmptyString).
Proof.
  intros o. subst o. rewrite addBuilding_eq. cbn [result after fst snd].
  rewrite getBuilding_updated. cbn [updated this_buildings].
  rewrite JSMapFacts.get_set_same. eexists. split; [reflexivity|].
  cbn [nickname]. repeat split.
  - intros s -> ne. destruct s; [congruence | reflexivity].
  - now intros ->.
  - now intros ->.
  - exists (nicknameOr nick addr). split; [reflexivity|].
    destruct nick as [[|c s]|]; simpl; try discriminate;
      apply generateNickname_nonempty.
Qed.

(** ** Removing and clearing *)

(** X3. [removeBuilding] on a live id, in a reachable state: it returns
    [true]; the id is no longer live; the other entries stay, in their
    order, so there is exactly one entry less; [setMap(null)] is sent for
    the entry's boundary, then for each of its panels in order, and only
    then the notification. *)
Theorem remove_live_entry (this : MultiBuildingManager) (k : string)
    (b : SelectedBuilding) :
  Reachable this ->
  result (getBuilding k this) = Some b ->
  let o := removeBuilding k this in
  result o = true
  /\ ~ live k (after o)
  /\ (forall k', k' <> k ->
        result (getBuilding k' (after o)) = result (getBuilding k' this))
  /\ all (after o) = others k (all this)
  /\ List.length (all this) = S (List.length (all (after o)))
  /\ trace o
     = ((match boundary b with Some p => [SetMapNull p] | None => [] end)
        ++ map SetMapNull (panels b) ++ notification (after o))%list.
Proof.
  intros R G o. subst o. destruct (Reachable_Inv _ R) as [nd ok].
  assert (G' : JSMap.get k (this_buildings this) = Some b) by exact G.
  rewrite (removeBuilding_live k b this G'). cbn [result after trace fst snd].
  split; [reflexivity|]. split.
  { unfold live. rewrite getBuilding_updated. intros H. apply H.
    now apply get_delete_same. }
  split.
  { intros k' ne. rewrite getBuilding_updated. now apply get_delete_other. }
  split; [rewrite all_updated; now apply values_delete|].
  split.
  { rewrite all_updated, (values_delete k _ ok nd).
    exact (length_others_live k b _ ok nd G'). }
  unfold detachEvents. now rewrite <- app_assoc.
Qed.

(** X4. [clear] sends [setMap(null)] for the boundary and the panels of
    every entry, entry after entry in insertion order, leaves no entry, and
    then, after all of them, notifies once with the empty sequence (when
    there is a callback): the trace is the detach calls followed by the
    notification. A second [clear] has nothing left to detach. *)
Theorem clear_detaches_and_empties (this : MultiBuildingManager) :
  let o := clear this in
  all (after o) = []
  /\ (forall k, ~ live k (after o))
  /\ detached (trace o) = flat_map detachEvents (all this)
  /\ callbacks (trace o)
     = match this_onUpdateCallback this with
       | Some cb => [OnUpdate cb []]
       | None => []
       end
  /\ detached (trace (clear (after o))) = []
  /\ trace o
     = (flat_map
          (fun b =>
             match boundary b with Some p => [SetMapNull p] | None => [] end
             ++ map SetMapNull (panels b))
          (all this)
        ++ match this_onUpdateCallback this with
           | Some cb => [OnUpdate cb []]
           | None => []
           end)%list.
Proof.
  intros o. subst o. rewrite !clear_eq. cbn [result after trace fst snd].
  autorewrite with effects.
  assert (N : notification (updated (fun _ => JSMap.empty) this)
              = match this_onUpdateCallback this with
                | Some cb => [OnUpdate cb []]
                | None => []
                end).
  { unfold notification. cbn. now destruct (this_onUpdateCallback this). }
  rewrite N. repeat split.
  - intros k H. apply H. reflexivity.
  - now destruct (this_onUpdateCallback this).
Qed.

(** ** Updating an entry *)

(** X5. [updateBuildingConfig] and [updateBuildingNickname] on a live id, in
    a reachable state, return [true] and change that one field of that one
    entry: the sequence of entries afterwards is the former one with the
    updated entry where the entry stood. *)
Theorem update_changes_one_field (this : MultiBuildingManager) (k : string)
    (b : SelectedBuilding) :
  Reachable this ->
  result (getBuilding k this) = Some b ->
  (forall configId,
      let o := updateBuildingConfig k configId this in
      result o = true
      /\ all (after o) = substitute k (set_configId configId b) (all this))
  /\ (forall nickname,
        let o := updateBuildingNickname k nickname this in
        result o = true
        /\ all (after o) = substitute k (set_nickname (Some nickname) b) (all this)).
Proof.
  intros R G. destruct (Reachable_Inv _ R) as [nd ok].
  assert (G' : JSMap.get k (this_buildings this) = Some b) by exact G.
  split; intros v o; subst o.
  - rewrite (updateBuildingConfig_live k v b this G'). cbn [result after fst snd].
    split; [reflexivity|]. rewrite all_updated. now apply values_replace.
  - rewrite (updateBuildingNickname_live k v b this G'). cbn [result after fst snd].
    split; [reflexivity|]. rewrite all_updated. now apply values_replace.
Qed.

(** X6. The handles given to [setBuildingPanels] and [setBuildingBoundary]
    replace the ones the entry had without any [setMap(null)] and without a
    notification; a later [removeBuilding] detaches the new boundary and the
    new panels, and never the replaced ones. *)
Theorem attached_handles_are_the_ones_detached (this : MultiBuildingManager)
    (k : string) (b : SelectedBuilding) (ps : list Polygon) (p : Polygon) :
  result (getBuilding k this) = Some b ->
  let o1 := setBuildingPanels k ps this in
  let o2 := setBuildingBoundary k p (after o1) in
  let o3 := removeBuilding k (after o2) in
  result o1 = true /\ trace o1 = []
  /\ result o2 = true /\ trace o2 = []
  /\ result (getBuilding k (after o2)) = Some (set_boundary (Some p) (set_panels ps b))
  /\ result o3 = true
  /\ detached (trace o3) = SetMapNull p :: map SetMapNull ps.
Proof.
  intros G o1 o2 o3. subst o1 o2 o3.
  assert (G' : JSMap.get k (this_buildings this) = Some b) by exact G.
  rewrite (setBuildingPanels_live k ps b this G'). cbn [result after trace fst snd].
  set (this1 := updated (JSMap.replace k (set_panels ps b)) this).
  assert (G1 : JSMap.get k (this_buildings this1) = Some (set_panels ps b)).
  { apply JSMapFacts.get_replace_same. congruence. }
  rewrite (setBuildingBoundary_live k p _ this1 G1). cbn [result after trace fst snd].
  set (b2 := set_boundary (Some p) (set_panels ps b)).
  set (this2 := updated (JSMap.replace k b2) this1).
  assert (G2 : JSMap.get k (this_buildings this2) = Some b2).
  { apply JSMapFacts.get_replace_same. congruence. }
  rewrite (removeBuilding_live k b2 this2 G2). cbn [result after trace fst snd].
  repeat split; [exact G2|].
  autorewrite with effects. reflexivity.
Qed.

(** ** Activation and aggregation *)

Lemma filter_substitute_off k v l :
  isActive v = false ->
  filter isActive (substitute k v l) = others k (filter isActive l).
Proof.
  intros off. unfold substitute, others. induction l as [|x l IH]; simpl; [reflexivity|].
  destruct (String.eqb (id x) k) eqn:E.
  - rewrite off. destruct (isActive x); simpl; [now rewrite E|exact IH].
  - destruct (isActive x); simpl; [rewrite E; simpl; now f_equal | exact IH].
Qed.

(** X7. Deactivating: in a reachable state, [toggleBuildingActive] on an
    active entry takes exactly that entry out of [getActiveBuildings], the
    others keep their order, and [getAggregatedData] then computes over the
    remaining ones only. Toggling an inactive entry puts it among the active
    ones. *)
Theorem toggle_changes_the_active_set (this : MultiBuildingManager) (k : string)
    (b : SelectedBuilding) :
  Reachable this ->
  result (getBuilding k this) = Some b ->
  let this' := after (toggleBuildingActive k this) in
  (isActive b = true ->
   active this' = others k (active this)
   /\ (forall r d,
         result (getAggregatedData r d this')
         = aggregate (orDefault 1.0%float r) (orDefault 0.85%float d)
             (others k (active this))))
  /\ (isActive b = false -> In (set_isActive true b) (active this')).
Proof.
  intros R G this'. subst this'. destruct (Reachable_Inv _ R) as [nd ok].
  assert (G' : JSMap.get k (this_buildings this) = Some b) by exact G.
  rewrite (toggleBuildingActive_live k b this G'). cbn [after fst snd].
  assert (A : forall f, active (updated f this)
                        = filter isActive (JSMap.values (f (this_buildings this))))
    by reflexivity.
  split.
  - intros on. rewrite on. cbn [negb].
    assert (E : active (updated (JSMap.replace k (set_isActive false b)) this)
                = others k (active this)).
    { rewrite A, (values_replace k _ _ ok nd).
      now apply (filter_substitute_off k (set_isActive false b)). }
    split; [exact E|]. intros r d. rewrite getAggregatedData_eq. cbn [result fst].
    now rewrite E.
  - intros off. rewrite off. cbn [negb]. rewrite A. apply filter_In. split; [|reflexivity].
    unfold JSMap.values. apply in_map_iff. exists (k, set_isActive true b).
    split; [reflexivity|]. apply get_In. apply JSMapFacts.get_replace_same. congruence.
Qed.

Lemma forOf_throws_iff body acc l :
  (forall acc acc' b, body acc b = ThrowTypeError -> body acc' b = ThrowTypeError) ->
  forOf body acc l = ThrowTypeError
  <-> Exists (fun b => body acc b = ThrowTypeError) l.
Proof.
  intros indep. revert acc. induction l as [|b l IH]; intros acc; simpl.
  - split; [discriminate | intros H; inversion H].
  - destruct (body acc b) as [acc'|] eqn:E.
    + rewrite IH. split.
      * intros H. right. eapply Exists_impl; [|exact H]. intros x. apply indep.
      * intros H. inversion H as [? ? H1|? ? H1]; subst; [congruence|].
        eapply Exists_impl; [|exact H1]. intros x. apply indep.
    + split; [intros _; now left | reflexivity].
Qed.

(** X8. [getAggregatedData] throws (the [TypeError] of reading
    [config.panelsCount] on [undefined]) exactly when some active entry's
    [configId] names none of its configurations; what the inactive entries
    hold does not matter. *)
Theorem getAggregatedData_throws_iff (this : MultiBuildingManager)
    (r d : option float) :
  result (getAggregatedData r d this) = ThrowTypeError
  <-> Exists (fun b => configOf b = None) (active this).
Proof.
  rewrite getAggregatedData_eq. cbn [result fst]. unfold aggregate.
  set (body := accumulate (orDefault 1.0%float r) (orDefault 0.85%float d)).
  assert (T : forall acc b, body acc b = ThrowTypeError <-> configOf b = None).
  { intros acc b. unfold body, accumulate. destruct (configOf b); split; congruence. }
  destruct (forOf body zeroTotals (active this)) eqn:F.
  - split; [discriminate|]. intros H. exfalso.
    assert (F' : forOf body zeroTotals (active this) = ThrowTypeError).
    { apply forOf_throws_iff.
      - intros acc acc' b. rewrite !T. auto.
      - eapply Exists_impl; [|exact H]. intros b. apply T. }
    congruence.
  - split; [intros _|reflexivity]. apply forOf_throws_iff in F.
    + eapply Exists_impl; [|exact F]. intros b. apply T.
    + intros acc acc' b. rewrite !T. auto.
Qed.

(** ** Proximity: the edges *)

Lemma sub_self (x : float) : isFiniteNumber x = true -> (x - x)%float = 0%float.
Proof.
  unfold isFiniteNumber. intros F. apply Prim2SF_inj. rewrite sub_spec.
  destruct (Prim2SF x) as [s|s| |s m e]; try discriminate.
  - now destruct s.
  - unfold SF64sub, SFsub. rewrite Z.min_id, Z.sub_diag. reflexivity.
Qed.

Lemma distance_to_itself (b : SelectedBuilding) :
  isFiniteNumber (lat (location b)) = true ->
  isFiniteNumber (lng (location b)) = true ->
  distance (location b) b = 0%float.
Proof.
  intros Flat Flng. unfold distance. rewrite (sub_self _ Flat), (sub_self _ Flng).
  reflexivity.
Qed.

Lemma hasBuilding_scan_exists point threshold m b :
  In b (JSMap.values m) ->
  (distance point b <? threshold)%float = true ->
  exists i, hasBuilding_scan point threshold m = Some i /\ In i (JSMap.keys m).
Proof.
  induction m as [|[k v] m IH]; simpl; [tauto|].
  intros [<-|i] W.
  - rewrite W. exists k. auto.
  - destruct (distance point v <? threshold)%float.
    + exists k. auto.
    + destruct (IH i W) as (j & -> & ij). exists j. auto.
Qed.

(** X9. A building is found at its own location: in a reachable state, for
    a live entry with finite coordinates and a threshold above zero (the
    default 0.0001 is), [hasBuilding] at the entry's location does not
    return [null]; it returns the id of a live entry. *)
Theorem hasBuilding_finds_own_location (this : MultiBuildingManager)
    (b : SelectedBuilding) (threshold : option float) :
  Reachable this ->
  In b (all this) ->
  isFiniteNumber (lat (location b)) = true ->
  isFiniteNumber (lng (location b)) = true ->
  (0 <? orDefault 0.0001%float threshold)%float = true ->
  exists i,
    result (hasBuilding (location b) threshold this) = Some i
    /\ In i (map id (all this)).
Proof.
  intros R i Flat Flng pos. rewrite (Inv_ids _ (Reachable_Inv _ R)).
  apply (hasBuilding_scan_exists _ _ _ b); [exact i|].
  now rewrite (distance_to_itself b Flat Flng).
Qed.

Lemma nan_sub (y : float) : (nan - y)%float = nan.
Proof. apply Prim2SF_inj. rewrite sub_spec. reflexivity. Qed.

Lemma add_nan_l (y : float) : (nan + y)%float = nan.
Proof. apply Prim2SF_inj. rewrite add_spec. reflexivity. Qed.

Lemma add_nan_r (x : float) : (x + nan)%float = nan.
Proof.
  apply Prim2SF_inj. rewrite add_spec. change (Prim2SF nan) with S754_nan.
  now destruct (Prim2SF x).
Qed.

Lemma nan_ltb (y : float) : (nan <? y)%float = false.
Proof. rewrite ltb_spec. reflexivity. Qed.

Lemma distance_nan point b :
  lat point = nan \/ lng point = nan -> distance point b = nan.
Proof.
  unfold distance. intros [-> | ->]; rewrite nan_sub.
  - change (abs nan * abs nan)%float with nan. now rewrite add_nan_l.
  - change (abs nan * abs nan)%float with nan. now rewrite add_nan_r.
Qed.

(** X10. A location with a NaN coordinate matches nothing: [hasBuilding]
    returns [null] for it in every state and for every threshold. *)
Theorem hasBuilding_of_NaN_is_null (this : MultiBuildingManager) (point : LatLng)
    (threshold : option float) :
  lat point = nan \/ lng point = nan ->
  result (hasBuilding point threshold this) = None.
Proof.
  intros N. unfold hasBuilding. run.
  induction (this_buildings this) as [|[k b] m IH]; simpl; [reflexivity|].
  now rewrite (distance_nan point b N), nan_ltb.
Qed.

(** ** When two generated ids are equal *)

(** X11. Two generated ids are equal exactly when the two latitudes and the
    two longitudes print alike with six decimals and the two time values are
    the same: this, and nothing else, is when a second [addBuilding]
    replaces an entry instead of adding one. *)
Theorem generateId_collides_iff (now now' : Z) (loc loc' : LatLng) :
  generateId now loc = generateId now' loc'
  <-> JS.toFixed6 (lat loc) = JS.toFixed6 (lat loc')
      /\ JS.toFixed6 (lng loc) = JS.toFixed6 (lng loc')
      /\ now = now'.
Proof.
  split.
  - unfold generateId. intros E. cbn [append] in E. injection E as E.
    destruct (first_field_inj _ _ _ _ (toFixed6_no_underscore _)
                (toFixed6_no_underscore _) E) as [Elat E'].
    destruct (first_field_inj _ _ _ _ (toFixed6_no_underscore _)
                (toFixed6_no_underscore _) E') as [Elng Enow].
    repeat split; auto. now apply decimal_inj.
  - intros (Elat & Elng & <-). now apply generateId_same.
Qed.

(** ** [findSolarConfig] *)

Lemma findIndex_from_found {A : Type} (p : A -> bool) (l : list A) (i : Z) :
  Exists (fun x => p x = true) l ->
  exists before x rest,
    l = (before ++ x :: rest)%list
    /\ findIndex_from p l i = (i + Z.of_nat (List.length before))%Z
    /\ p x = true
    /\ Forall (fun y => p y = false) before.
Proof.
  intros H. revert i. induction l as [|x l IH]; intros i; [inversion H|].
  simpl. destruct (p x) eqn:E.
  - exists [], x, l. simpl. rewrite Z.add_0_r. auto.
  - assert (H' : Exists (fun x => p x = true) l).
    { inversion H; subst; [congruence | assumption]. }
    destruct (IH H' (i + 1)%Z) as (before & y & rest & -> & F & Py & B).
    exists (x :: before), y, rest. repeat split; auto.
    rewrite F. simpl List.length. lia.
Qed.

Lemma findIndex_from_none {A : Type} (p : A -> bool) (l : list A) (i : Z) :
  Forall (fun x => p x = false) l -> findIndex_from p l i = (-1)%Z.
Proof.
  intros H. revert i. induction H as [|x l E _ IH]; intros i; simpl; [reflexivity|].
  now rewrite E.
Qed.

Lemma Forall_or_Exists {A : Type} (p : A -> bool) (l : list A) :
  Forall (fun x => p x = false) l \/ Exists (fun x => p x = true) l.
Proof.
  induction l as [|x l [IH|IH]]; [left; constructor| |right; now right].
  destruct (p x) eqn:E; [right; now left | left; now constructor].
Qed.

(** X12. [findSolarConfig] returns the index of the first configuration
    whose yearly DC yield, scaled by the capacity ratio and the derate,
    reaches the consumption: an index within the list, with every earlier
    configuration falling short; it returns [-1] exactly when no
    configuration reaches it (an empty list, a NaN consumption). *)
Theorem findSolarConfig_first_sufficient (configs : list SolarPanelConfig)
    (consumption r d : float) :
  let i := findSolarConfig configs consumption r d in
  let enough c := (consumption <=? yearlyEnergyDcKwh c * r * d)%float in
  (i = (-1)%Z <-> Forall (fun c => enough c = false) configs)
  /\ (i <> (-1)%Z ->
      (0 <= i < Z.of_nat (List.length configs))%Z
      /\ exists before c rest,
           configs = (before ++ c :: rest)%list
           /\ Z.of_nat (List.length before) = i
           /\ enough c = true
           /\ Forall (fun c' => enough c' = false) before).
Proof.
  intros i enough. subst i. unfold findSolarConfig, findIndex. fold enough.
  destruct (Forall_or_Exists enough configs) as [N|Y].
  - rewrite (findIndex_from_none enough configs 0 N). split; [tauto | congruence].
  - destruct (findIndex_from_found enough configs 0 Y)
      as (before & c & rest & E & F & Pc & B).
    rewrite F. split.
    + split; [lia|]. intros N. exfalso. rewrite E in N.
      apply Forall_app in N. destruct N as [_ N]. inversion N; congruence.
    + intros _. split.
      * rewrite E, length_app. simpl. lia.
      * exists before, c, rest. repeat split; auto.
Qed.

(** ** What every live entry satisfies, and what no call changes *)

Section EntryInvariant.
Variable P : SelectedBuilding -> Prop.
Hypothesis P_new : forall now ins loc addr cfg nick, P (newBuilding now ins loc addr cfg nick).
Hypothesis P_configId : forall v b, P b -> P (set_configId v b).
Hypothesis P_nickname : forall v b, P b -> P (set_nickname (Some v) b).
Hypothesis P_isActive : forall v b, P b -> P (set_isActive v b).
Hypothesis P_panels : forall v b, P b -> P (set_panels v b).
Hypothesis P_boundary : forall v b, P b -> P (set_boundary (Some v) b).

Let Q (kv : string * SelectedBuilding) : Prop := P (snd kv).

Lemma entries_perform this c :
  Forall Q (this_buildings this) -> Forall Q (this_buildings (after (perform c this))).
Proof.
  intros I.
  assert (step : forall k b f, JSMap.get k (this_buildings this) = Some b ->
                               (P b -> P (f b)) ->
                               Forall Q (JSMap.replace k (f b) (this_buildings this))).
  { intros k b f G pf. apply Forall_replace; [exact I|]. apply pf.
    apply get_In in G. rewrite Forall_forall in I. exact (I _ G). }
  destruct c as [now ins loc addr cfg nick|k|k cfg|k nick|k|k ps|k p|];
    unfold perform; try unfold bind;
    try (destruct (JSMap.get k (this_buildings this)) as [b|] eqn:G).
  - rewrite addBuilding_eq. cbn. apply Forall_set; [exact I | apply P_new].
  - rewrite (removeBuilding_live _ _ _ G). cbn. now apply Forall_delete.
  - now rewrite (removeBuilding_absent _ _ G).
  - rewrite (updateBuildingConfig_live _ _ _ _ G). cbn.
    apply (step k b (set_configId cfg) G), P_configId.
  - now rewrite (updateBuildingConfig_absent _ _ _ G).
  - rewrite (updateBuildingNickname_live _ _ _ _ G). cbn.
    apply (step k b (set_nickname (Some nick)) G), P_nickname.
  - now rewrite (updateBuildingNickname_absent _ _ _ G).
  - rewrite (toggleBuildingActive_live _ _ _ G). cbn.
    apply (step k b (set_isActive (negb (isActive b))) G), P_isActive.
  - now rewrite (toggleBuildingActive_absent _ _ G).
  - rewrite (setBuildingPanels_live _ _ _ _ G). cbn.
    apply (step k b (set_panels ps) G), P_panels.
  - now rewrite (setBuildingPanels_absent _ _ _ G).
  - rewrite (setBuildingBoundary_live _ _ _ _ G). cbn.
    apply (step k b (set_boundary (Some p)) G), P_boundary.
  - now rewrite (setBuildingBoundary_absent _ _ _ G).
  - rewrite clear_eq. cbn. constructor.
Qed.

Lemma Reachable_entries this k b :
  Reachable this -> JSMap.get k (this_buildings this) = Some b -> P b.
Proof.
  intros R. assert (I : Forall Q (this_buildings this)).
  { induction R as [cb|this c _ IH]; [cbn; constructor | now apply entries_perform]. }
  intros G. apply get_In in G. rewrite Forall_forall in I. exact (I _ G).
Qed.
End EntryInvariant.

Lemma Reachable_nickname this k b :
  Reachable this -> JSMap.get k (this_buildings this) = Some b ->
  exists s, nickname b = Some s.
Proof.
  apply (Reachable_entries (fun b => exists s, nickname b = Some s)); intros; cbn;
    eauto.
Qed.

Lemma replace_absent k v m : JSMap.get k m = None -> JSMap.replace k v m = m.
Proof.
  induction m as [|[k' v'] m IH]; simpl; [reflexivity|].
  destruct (String.eqb k k'); intros H; [discriminate | now rewrite IH].
Qed.

Lemma get_replace_cases k k' v b' m :
  JSMap.get k' (JSMap.replace k v m) = Some b' ->
  (k' = k /\ b' = v /\ JSMap.get k m <> None) \/ JSMap.get k' m = Some b'.
Proof.
  destruct (String.eqb_spec k' k) as [->|ne].
  - destruct (JSMap.get k m) eqn:G.
    + rewrite JSMapFacts.get_replace_same by congruence. intros [= <-]. left.
      repeat split. discriminate.
    + rewrite (replace_absent k v m G), G. discriminate.
  - rewrite JSMapFacts.get_replace_other by exact ne. auto.
Qed.

(** X13. Only [addBuilding] creates entries, and what identifies an entry is
    never touched: after any other changing call, in a reachable state, an
    id that is live was live before the call, and its entry has the [id],
    the [buildingInsights], the [location] and the [address] it had. *)
Theorem identity_is_kept (this : MultiBuildingManager) (c : Mutation) (k : string)
    (b' : SelectedBuilding) :
  Reachable this ->
  isAdd c = false ->
  result (getBuilding k (after (perform c this))) = Some b' ->
  exists b, result (getBuilding k this) = Some b /\ sameIdentity b' b.
Proof.
  intros R notAdd. destruct (Reachable_Inv _ R) as [nd _].
  assert (same : forall b, sameIdentity b b) by (intros; repeat split).
  assert (step : forall k0 b f,
             JSMap.get k0 (this_buildings this) = Some b ->
             sameIdentity (f b) b ->
             JSMap.get k (JSMap.replace k0 (f b) (this_buildings this)) = Some b' ->
             exists b0, result (getBuilding k this) = Some b0 /\ sameIdentity b' b0).
  { intros k0 b f G S H. apply get_replace_cases in H.
    destruct H as [(-> & -> & _)|H]; [exists b | exists b']; split; auto. }
  destruct c as [now ins loc addr cfg nick|k0|k0 cfg|k0 nick|k0|k0 ps|k0 p|];
    [discriminate| | | | | | |];
    unfold perform; try unfold bind;
    try (destruct (JSMap.get k0 (this_buildings this)) as [b|] eqn:G).
  - rewrite (removeBuilding_live _ _ _ G). cbn [after fst snd ret].
    rewrite getBuilding_updated. intros H.
    destruct (String.eqb_spec k k0) as [->|ne].
    + rewrite (get_delete_same k0 _ nd) in H. discriminate.
    + rewrite (get_delete_other k0 k _ ne) in H. exists b'. auto.
  - rewrite (removeBuilding_absent _ _ G). cbn [after fst snd ret]. intros H. exists b'. auto.
  - rewrite (updateBuildingConfig_live _ _ _ _ G). cbn [after fst snd ret].
    rewrite getBuilding_updated. apply (step k0 b (set_configId cfg) G). repeat split.
  - rewrite (updateBuildingConfig_absent _ _ _ G). cbn [after fst snd ret]. intros H. exists b'. auto.
  - rewrite (updateBuildingNickname_live _ _ _ _ G). cbn [after fst snd ret].
    rewrite getBuilding_updated. apply (step k0 b (set_nickname (Some nick)) G). repeat split.
  - rewrite (updateBuildingNickname_absent _ _ _ G). cbn [after fst snd ret]. intros H. exists b'. auto.
  - rewrite (toggleBuildingActive_live _ _ _ G). cbn [after fst snd ret].
    rewrite getBuilding_updated.
    apply (step k0 b (set_isActive (negb (isActive b))) G). repeat split.
  - rewrite (toggleBuildingActive_absent _ _ G). cbn [after fst snd ret]. intros H. exists b'. auto.
  - rewrite (setBuildingPanels_live _ _ _ _ G). cbn [after fst snd ret].
    rewrite getBuilding_updated. apply (step k0 b (set_panels ps) G). repeat split.
  - rewrite (setBuildingPanels_absent _ _ _ G). cbn [after fst snd ret]. intros H. exists b'. auto.
  - rewrite (setBuildingBoundary_live _ _ _ _ G). cbn [after fst snd ret].
    rewrite getBuilding_updated. apply (step k0 b (set_boundary (Some p)) G). repeat split.
  - rewrite (setBuildingBoundary_absent _ _ _ G). cbn [after fst snd ret]. intros H. exists b'. auto.
  - rewrite clear_eq. cbn. discriminate.
Qed.

(** ** The nickname editor of the list *)

Lemma handleEditNickname_live k n b this :
  JSMap.get k (this_buildings this) = Some b ->
  let this' := updated (JSMap.replace k (set_nickname (Some n) b)) this in
  handleEditNickname k n this = (tt, this', notification this').
Proof.
  intros G this'. unfold handleEditNickname, bind.
  rewrite (updateBuildingNickname_live k n b this G). cbn. now rewrite app_nil_r.
Qed.

(** X14. Renaming from the list: opening the editor on an entry, typing a
    text and pressing Enter stores exactly that text as the entry's
    nickname, changes nothing else of the entry, closes the editor and
    notifies as [updateBuildingNickname] does. *)
Theorem enter_saves_the_typed_nickname (this : MultiBuildingManager)
    (component : MultiBuildingList) (building : SelectedBuilding) (text : string) :
  result (getBuilding (id building) this) = Some building ->
  let editing := inputNickname text (startEditNickname building component) in
  let o := handleKeydown "Enter" (id building) editing this in
  editingNickname editing = Some (id building)
  /\ editingNickname (result o) = None
  /\ result (getBuilding (id building) (after o))
     = Some (set_nickname (Some text) building)
  /\ (forall k, k <> id building ->
        result (getBuilding k (after o)) = result (getBuilding k this))
  /\ trace o = notification (after o).
Proof.
  intros G editing o. subst editing o.
  assert (G' : JSMap.get (id building) (this_buildings this) = Some building) by exact G.
  unfold handleKeydown. cbn [String.eqb Ascii.eqb Bool.eqb].
  unfold saveNickname, bind. cbn [inputNickname tempNickname].
  rewrite (handleEditNickname_live _ text building this G').
  cbn [result after trace fst snd ret editingNickname]. rewrite app_nil_r.
  split; [reflexivity|]. split; [reflexivity|]. split.
  { rewrite getBuilding_updated. apply JSMapFacts.get_replace_same. congruence. }
  split; [|reflexivity].
  intros k ne. rewrite getBuilding_updated. now apply JSMapFacts.get_replace_other.
Qed.

Lemma set_nickname_same (b : SelectedBuilding) (s : string) :
  nickname b = Some s -> set_nickname (Some s) b = b.
Proof. destruct b. cbn. now intros ->. Qed.

(** X15. Leaving the editor: Escape closes it, forgets the typed text and
    reaches the registry in no way, and so does no other key than Enter;
    and in a reachable state, opening the editor on a live entry and
    pressing Enter without typing leaves every entry as it was. *)
Theorem leaving_the_editor_keeps_the_registry (this : MultiBuildingManager)
    (component : MultiBuildingList) (building : SelectedBuilding) :
  Reachable this ->
  result (getBuilding (id building) this) = Some building ->
  (forall k, handleKeydown "Escape" k component this
             = ({| editingNickname := None; tempNickname := EmptyString |}, this, []))
  /\ (forall key k,
        key <> "Enter" -> key <> "Escape" ->
        handleKeydown key k component this = (component, this, []))
  /\ after (handleKeydown "Enter" (id building)
              (startEditNickname building component) this)
     = this.
Proof.
  intros R G. split; [reflexivity|]. split.
  - intros key k nE nX. unfold handleKeydown.
    apply String.eqb_neq in nE, nX. now rewrite nE, nX.
  - assert (G' : JSMap.get (id building) (this_buildings this) = Some building)
      by exact G.
    destruct (Reachable_nickname _ _ _ R G') as [s N].
    unfold handleKeydown. cbn [String.eqb Ascii.eqb Bool.eqb].
    unfold saveNickname, bind, startEditNickname, nicknameOrEmpty.
    cbn [tempNickname]. rewrite N.
    rewrite (handleEditNickname_live _ s building this G').
    cbn [after fst snd ret]. rewrite (set_nickname_same _ _ N).
    unfold updated. rewrite (JSMapFacts.replace_get _ _ _ G'). now destruct this.
Qed.

(** ** Concrete runs of the further properties *)

Lemma firstEntry_live :
  result (getBuilding oneBuildingId twoBuildings) = Some firstEntry.
Proof. vm_compute. reflexivity. Qed.

Lemma add_fresh_appends_witness :
  ~ live (generateId 1700000000002 mockLatLng1) twoBuildings
  /\ all (after (addBuilding 1700000000002 mockBuildingInsights mockLatLng1
                   "Address 3" None None twoBuildings))
     = [firstEntry; secondEntry;
        newBuilding 1700000000002 mockBuildingInsights mockLatLng1 "Address 3" None None].
Proof.
  assert (H : ~ live (generateId 1700000000002 mockLatLng1) twoBuildings).
  { intros L. apply L. vm_compute. reflexivity. }
  split; [exact H|].
  destruct (add_fresh_appends twoBuildings 1700000000002 mockBuildingInsights
              mockLatLng1 "Address 3" None None H) as (_ & _ & _ & _ & _ & A & _).
  rewrite A. vm_compute. reflexivity.
Defined.

Lemma remove_live_entry_witness :
  Reachable twoBuildings
  /\ result (getBuilding oneBuildingId twoBuildings) = Some firstEntry
  /\ all (after (removeBuilding oneBuildingId twoBuildings)) = [secondEntry].
Proof.
  split; [exact twoBuildings_reachable|]. split; [exact firstEntry_live|].
  destruct (remove_live_entry twoBuildings oneBuildingId firstEntry
              twoBuildings_reachable firstEntry_live) as (_ & _ & _ & A & _).
  rewrite A. vm_compute. reflexivity.
Defined.

Lemma update_changes_one_field_witness :
  Reachable twoBuildings
  /\ result (getBuilding oneBuildingId twoBuildings) = Some firstEntry
  /\ all (after (updateBuildingNickname oneBuildingId "Office" twoBuildings))
     = [set_nickname (Some "Office") firstEntry; secondEntry].
Proof.
  split; [exact twoBuildings_reachable|]. split; [exact firstEntry_live|].
  destruct (update_changes_one_field twoBuildings oneBuildingId firstEntry
              twoBuildings_reachable firstEntry_live) as [_ N].
  destruct (N "Office") as [_ A]. rewrite A. vm_compute. reflexivity.
Defined.

Lemma attached_handles_are_the_ones_detached_witness :
  let withOld :=
    after (setBuildingPanels oneBuildingId [PolygonHandle 7] twoBuildings) in
  let old := set_panels [PolygonHandle 7] firstEntry in
  result (getBuilding oneBuildingId withOld) = Some old
  /\ detached
       (trace
          (removeBuilding oneBuildingId
             (after (setBuildingBoundary oneBuildingId (PolygonHandle 3)
                       (after (setBuildingPanels oneBuildingId
                                 [PolygonHandle 1; PolygonHandle 2] withOld))))))
     = [SetMapNull (PolygonHandle 3); SetMapNull (PolygonHandle 1);
        SetMapNull (PolygonHandle 2)].
Proof.
  intros withOld old.
  assert (G : result (getBuilding oneBuildingId withOld) = Some old)
    by (vm_compute; reflexivity).
  split; [exact G|].
  exact (proj2 (proj2 (proj2 (proj2 (proj2 (proj2
           (attached_handles_are_the_ones_detached withOld oneBuildingId old
              [PolygonHandle 1; PolygonHandle 2] (PolygonHandle 3) G))))))).
Defined.

Lemma toggle_changes_the_active_set_witness :
  Reachable twoBuildings
  /\ result (getBuilding oneBuildingId twoBuildings) = Some firstEntry
  /\ isActive firstEntry = true
  /\ active (after (toggleBuildingActive oneBuildingId twoBuildings)) = [secondEntry].
Proof.
  split; [exact twoBuildings_reachable|]. split; [exact firstEntry_live|].
  split; [reflexivity|].
  destruct (toggle_changes_the_active_set twoBuildings oneBuildingId firstEntry
              twoBuildings_reachable firstEntry_live) as [Off _].
  destruct (Off eq_refl) as [A _]. rewrite A. vm_compute. reflexivity.
Defined.

Lemma hasBuilding_finds_own_location_witness :
  Reachable twoBuildings
  /\ In secondEntry (all twoBuildings)
  /\ isFiniteNumber (lat (location secondEntry)) = true
  /\ isFiniteNumber (lng (location secondEntry)) = true
  /\ (0 <? orDefault 0.0001%float None)%float = true
  /\ exists i,
       result (hasBuilding (location secondEntry) None twoBuildings) = Some i
       /\ In i (map id (all twoBuildings)).
Proof.
  assert (I : In secondEntry (all twoBuildings)).
  { vm_compute. right. left. reflexivity. }
  split; [exact twoBuildings_reachable|]. split; [exact I|].
  split; [reflexivity|]. split; [reflexivity|]. split; [reflexivity|].
  exact (hasBuilding_finds_own_location twoBuildings secondEntry None
           twoBuildings_reachable I eq_refl eq_refl eq_refl).
Defined.

Lemma hasBuilding_of_NaN_is_null_witness :
  let point := {| lat := nan; lng := -122.143 |} in
  (lat point = nan \/ lng point = nan)
  /\ result (hasBuilding point (Some infinity) twoBuildings) = None.
Proof.
  intros point.
  assert (N : lat point = nan \/ lng point = nan) by (left; reflexivity).
  split; [exact N|].
  exact (hasBuilding_of_NaN_is_null twoBuildings point (Some infinity) N).
Defined.

Lemma identity_is_kept_witness :
  Reachable twoBuildings
  /\ isAdd (ToggleActive oneBuildingId) = false
  /\ exists b' b,
       result (getBuilding oneBuildingId
                 (after (perform (ToggleActive oneBuildingId) twoBuildings)))
       = Some b'
       /\ result (getBuilding oneBuildingId twoBuildings) = Some b
       /\ sameIdentity b' b.
Proof.
  split; [exact twoBuildings_reachable|]. split; [reflexivity|].
  assert (G : result (getBuilding oneBuildingId
                        (after (perform (ToggleActive oneBuildingId) twoBuildings)))
              = Some (set_isActive false firstEntry)) by (vm_compute; reflexivity).
  destruct (identity_is_kept twoBuildings (ToggleActive oneBuildingId) oneBuildingId
              _ twoBuildings_reachable eq_refl G) as (b & Gb & S).
  exists (set_isActive false firstEntry), b. auto.
Defined.

Lemma enter_saves_the_typed_nickname_witness :
  result (getBuilding (id firstEntry) twoBuildings) = Some firstEntry
  /\ result (getBuilding (id firstEntry)
               (after (handleKeydown "Enter" (id firstEntry)
                         (inputNickname "Office"
                            (startEditNickname firstEntry closedEditor))
                         twoBuildings)))
     = Some (set_nickname (Some "Office") firstEntry).
Proof.
  assert (G : result (getBuilding (id firstEntry) twoBuildings) = Some firstEntry)
    by (vm_compute; reflexivity).
  split; [exact G|].
  destruct (enter_saves_the_typed_nickname twoBuildings closedEditor firstEntry
              "Office" G) as (_ & _ & S & _).
  exact S.
Defined.

Lemma leaving_the_editor_keeps_the_registry_witness :
  Reachable twoBuildings
  /\ result (getBuilding (id firstEntry) twoBuildings) = Some firstEntry
  /\ after (handleKeydown "Enter" (id firstEntry)
              (startEditNickname firstEntry closedEditor) twoBuildings)
     = twoBuildings.
Proof.
  assert (G : result (getBuilding (id firstEntry) twoBuildings) = Some firstEntry)
    by (vm_compute; reflexivity).
  split; [exact twoBuildings_reachable|]. split; [exact G|].
  exact (proj2 (proj2 (leaving_the_editor_keeps_the_registry twoBuildings closedEditor
                         firstEntry twoBuildings_reachable G))).
Defined.
